(** * The event subsystem of tsuru (package [event]): a shallow embedding

    The development follows the Go source of package [event]
    (src/cmd/auth.go, from the line [package event] on).  Go values are
    modelled as they are in the program:

    - [string] as [string]; [int] and [time.Duration] as [Z] (the code
      compares them and never does arithmetic that could wrap);
      [time.Time] as [Z], the nanoseconds elapsed since Go's zero time, so
      that [t.IsZero()] is [t = 0];
    - a slice or map whose nil-ness the code tests as an [option] ([None] is
      nil, [Some []] is the empty non-nil slice); other slices as lists;
    - a pair of results [(T, error)] as a pair whose second component is an
      [option error] ([None] is the nil error);
    - [bson.M] (a Go map) as a [gmap string bval], assignment [m[k] = v]
      as [<[k:=v]> m]; [bson.D] (an ordered document) as an association
      list;
    - the events collection as a [gmap] from the BSON [_id] to the stored
      document, threaded explicitly through every operation together with
      the rest of the process state ([World]). *)

From Stdlib Require Import ZArith Lia.
From stdpp Require Import gmap strings list fin_maps.

Open Scope string_scope.
Open Scope Z_scope.
Open Scope list_scope.

(** ** Data model *)

Definition TargetType := string.
Definition ownerType := string.
Definition kindType := string.

(** [bson.ObjectId] is a Go string holding twelve bytes; the code only
    tests its length against zero and uses it as a key. *)
Definition ObjectId := string.

Record Target := mkTarget {
  Target_Type : TargetType;
  Target_Value : string }.

Record eventID := mkEventID {
  ID_Target : Target;
  ID_ObjId : ObjectId }.

(** [bson.Raw]: the zero value [bson.Raw{}] has kind 0 and no data. *)
Record Raw := mkRaw {
  Raw_Kind : Z;
  Raw_Data : list Byte.byte }.

Definition Raw_zero : Raw := mkRaw 0 [].

Record Owner := mkOwner {
  Owner_Type : ownerType;
  Owner_Name : string }.

Record Kind := mkKind {
  Kind_Type : kindType;
  Kind_Name : string }.

Record cancelInfo := mkCancelInfo {
  CI_Owner : string;
  CI_StartTime : Z;
  CI_AckTime : Z;
  CI_Reason : string;
  CI_Asked : bool;
  CI_Canceled : bool }.

(** [permission.PermissionContext], of package [permission]: a context
    type and a value. *)
Record PermissionContext := mkCtx {
  CtxType : string;
  Ctx_Value : string }.

(** Modelled from the spec: the constant [permission.CtxGlobal] of package
    [permission], which is not among the sources; the spec calls it the
    [global] context. *)
Definition CtxGlobal : string := "global".

Record AllowedPermission := mkAllowed {
  Scheme : string;
  Contexts : list PermissionContext }.

Record eventData := mkEventData {
  ID : eventID;
  UniqueID : ObjectId;
  StartTime : Z;
  EndTime : Z;
  Target_ : Target;
  StartCustomData : Raw;
  EndCustomData : Raw;
  OtherCustomData : Raw;
  Kind_ : Kind;
  Owner_ : Owner;
  LockUpdateTime : Z;
  Error_ : string;
  Log : string;
  RemoveDate : Z;
  CancelInfo : cancelInfo;
  Cancelable : bool;
  Running : bool;
  Allowed_ : AllowedPermission;
  AllowedCancel : AllowedPermission }.

(** [Event] embeds [eventData] and owns the log buffer ([safe.Buffer]); the
    optional external writer [logWriter] takes no part in what is stored. *)
Record Event := mkEvent {
  data : eventData;
  logBuffer : string }.

Record ThrottlingSpec := mkSpec {
  Spec_TargetType : TargetType;
  Spec_KindName : string;
  Spec_Max : Z;
  Spec_Time : Z }.

(** The values of Go's [error] interface that the package handles.
    [errorString] stands for the errors made by [errors.New] and
    [errors.Errorf], and for those of collaborators, which the package only
    passes on; [mgoErrNotFound] is [mgo.ErrNotFound]; [mgoDuplicateKey] is
    the store's error for which [mgo.IsDup] holds. *)
Inductive error :=
| ErrValidation (msg : string)
| errorString (msg : string)
| ErrThrottled (spec : ThrottlingSpec) (target : Target)
| ErrEventLocked (event : Event)
| mgoErrNotFound
| mgoDuplicateKey.

Definition mgo_IsDup (err : error) : bool :=
  match err with mgoDuplicateKey => true | _ => false end.

Definition errInvalidQuery := errorString "invalid query".
Definition ErrNotCancelable := errorString "event is not cancelable".
Definition ErrEventNotFound := errorString "event not found".
Definition ErrNoTarget := ErrValidation "event target is mandatory".
Definition ErrNoKind := ErrValidation "event kind is mandatory".
Definition ErrNoOwner := ErrValidation "event owner is mandatory".
Definition ErrNoOpts := ErrValidation "event opts is mandatory".
Definition ErrNoInternalKind := ErrValidation "event internal kind is mandatory".
Definition ErrNoAllowed := errorString "event allowed is mandatory".
Definition ErrNoAllowedCancel :=
  errorString "event allowed cancel is mandatory for cancelable events".
Definition ErrInvalidOwner :=
  ErrValidation "event owner must not be set on internal events".
Definition ErrInvalidKind :=
  ErrValidation "event kind must not be set on internal events".
Definition ErrInvalidTargetType := errorString "invalid event target type".

Definition OwnerTypeUser : ownerType := "user".
Definition OwnerTypeApp : ownerType := "app".
Definition OwnerTypeInternal : ownerType := "internal".

Definition KindTypePermission : kindType := "permission".
Definition KindTypeInternal : kindType := "internal".

Definition TargetTypeApp : TargetType := "app".
Definition TargetTypeNode : TargetType := "node".
Definition TargetTypeContainer : TargetType := "container".
Definition TargetTypePool : TargetType := "pool".
Definition TargetTypeService : TargetType := "service".
Definition TargetTypeServiceInstance : TargetType := "service-instance".
Definition TargetTypeTeam : TargetType := "team".
Definition TargetTypeUser : TargetType := "user".
Definition TargetTypeIaas : TargetType := "iaas".
Definition TargetTypeRole : TargetType := "role".
Definition TargetTypePlatform : TargetType := "platform".
Definition TargetTypePlan : TargetType := "plan".
Definition TargetTypeNodeContainer : TargetType := "node-container".
Definition TargetTypeInstallHost : TargetType := "install-host".
Definition TargetTypeEventBlock : TargetType := "event-block".

(** The fifteen declared target types, in the order of their declaration. *)
Definition declaredTargetTypes : list TargetType :=
  [ TargetTypeApp; TargetTypeNode; TargetTypeContainer; TargetTypePool;
    TargetTypeService; TargetTypeServiceInstance; TargetTypeTeam;
    TargetTypeUser; TargetTypeIaas; TargetTypeRole; TargetTypePlatform;
    TargetTypePlan; TargetTypeNodeContainer; TargetTypeInstallHost;
    TargetTypeEventBlock ].

Definition filterMaxLimit : Z := 100.

(** [lockUpdateInterval = 30 * time.Second] and
    [lockExpireTimeout = 5 * time.Minute], in nanoseconds. *)
Definition lockUpdateInterval : Z := 30 * 1000000000.
Definition lockExpireTimeout : Z := 5 * (60 * 1000000000).

Definition Target_IsValid (id : Target) : bool :=
  negb (String.eqb (Target_Type id) "").

(** ** Target types *)

(** The [switch] of [GetTargetType] compares [t] with each case in turn. *)
Definition GetTargetType (t : string) : TargetType * option error :=
  if String.eqb t "app" then (TargetTypeApp, None)
  else if String.eqb t "node" then (TargetTypeNode, None)
  else if String.eqb t "container" then (TargetTypeContainer, None)
  else if String.eqb t "pool" then (TargetTypePool, None)
  else if String.eqb t "service" then (TargetTypeService, None)
  else if String.eqb t "service-instance" then (TargetTypeServiceInstance, None)
  else if String.eqb t "team" then (TargetTypeTeam, None)
  else if String.eqb t "user" then (TargetTypeUser, None)
  else ("", Some ErrInvalidTargetType).

(** The tags the [switch] of [GetTargetType] has a case for. *)
Definition handledTargetTypes : list TargetType :=
  [ "app"; "node"; "container"; "pool"; "service"; "service-instance"; "team"; "user" ].

(** ** Filters and their compilation to a store query *)

(** The BSON values the package builds: strings (target, kind and owner
    types are Go strings), booleans, times, ordered documents ([bson.D]),
    maps ([bson.M]) and slices. *)
#[warnings="-register-all"]
Inductive bval :=
| BStr (s : string)
| BBool (b : bool)
| BTime (t : Z)
| BD (d : list (string * bval))
| BM (m : gmap string bval)
| BArr (l : list bval).

(** [permission.PermissionScheme] is used through its method [FullName]
    only; [permission.Permission] pairs a scheme with one context. *)
Record PermissionScheme := mkScheme { FullName : string }.

Record Permission := mkPermission {
  Perm_Scheme : PermissionScheme;
  Perm_Context : PermissionContext }.

Record TargetFilter := mkTargetFilter {
  TF_Type : TargetType;
  TF_Values : option (list string) }.

Record Filter := mkFilter {
  F_Target : Target;
  F_KindType : kindType;
  F_KindName : string;
  F_OwnerType : ownerType;
  F_OwnerName : string;
  F_Since : Z;
  F_Until : Z;
  F_Running : option bool;
  F_IncludeRemoved : bool;
  F_ErrorOnly : bool;
  F_Raw : option (gmap string bval);
  F_AllowedTargets : option (list TargetFilter);
  F_Permissions : option (list Permission);
  F_Limit : Z;
  F_Skip : Z;
  F_Sort : string }.

Definition PruneUserValues (f : Filter) : Filter :=
  {| F_Target := F_Target f;
     F_KindType := F_KindType f;
     F_KindName := F_KindName f;
     F_OwnerType := F_OwnerType f;
     F_OwnerName := F_OwnerName f;
     F_Since := F_Since f;
     F_Until := F_Until f;
     F_Running := F_Running f;
     F_IncludeRemoved := F_IncludeRemoved f;
     F_ErrorOnly := F_ErrorOnly f;
     F_Raw := None;
     F_AllowedTargets := None;
     F_Permissions := None;
     F_Limit := if (filterMaxLimit <? F_Limit f) || (F_Limit f <=? 0)
                then filterMaxLimit else F_Limit f;
     F_Skip := F_Skip f;
     F_Sort := F_Sort f |}.

(** [strings.Replace(perm, ".", `\.`, -1)]: every dot (byte 46) is
    preceded by a backslash (byte 92). *)
Fixpoint escapeDots (s : string) : string :=
  match s with
  | EmptyString => EmptyString
  | String c r =>
      if Ascii.eqb c (Ascii.ascii_of_nat 46)
      then String (Ascii.ascii_of_nat 92) (String (Ascii.ascii_of_nat 46) (escapeDots r))
      else String c (escapeDots r)
  end.

(** The first loop of [toQuery]: [permMap[name] = append(permMap[name], ctx)]. *)
Definition groupPermissions (ps : list Permission)
  : gmap string (list PermissionContext) :=
  foldl (fun permMap p =>
           let name := FullName (Perm_Scheme p) in
           <[name := default [] (permMap !! name) ++ [Perm_Context p]]> permMap)
        ∅ ps.

Definition ctxDoc (ctx : PermissionContext) : bval :=
  BD [("ctxtype", BStr (CtxType ctx)); ("value", BStr (Ctx_Value ctx))].

(** The inner loop over the contexts of one scheme: [ctxsBson] starts as
    the empty non-nil slice [acc], and a global context sets it to nil and
    leaves the loop. *)
Fixpoint ctxsToBson (ctxs : list PermissionContext) (acc : list bval)
  : option (list bval) :=
  match ctxs with
  | [] => Some acc
  | ctx :: rest =>
      if String.eqb (CtxType ctx) CtxGlobal then None
      else ctxsToBson rest (acc ++ [ctxDoc ctx])
  end.

Definition permClause (perm : string) (ctxs : list PermissionContext)
  : gmap string bval :=
  let toAppend : gmap string bval :=
    {[ "allowed.scheme" := BM {[ "$regex" := BStr ("^" +:+ escapeDots perm) ]} ]} in
  match ctxsToBson ctxs [] with
  | Some ctxsBson => <["allowed.contexts" := BM {[ "$in" := BArr ctxsBson ]}]> toAppend
  | None => toAppend
  end.

(** Go leaves the order of [range permMap] unspecified; the model takes
    the order of [map_to_list]. *)
Definition permOrBlock (ps : list Permission) : list bval :=
  (fun '(perm, ctxs) => BM (permClause perm ctxs)) <$> map_to_list (groupPermissions ps).

Definition targetClause (at_ : TargetFilter) : gmap string bval :=
  let f : gmap string bval := {[ "target.type" := BStr (TF_Type at_) ]} in
  match TF_Values at_ with
  | Some values => <["target.value" := BM {[ "$in" := BArr (BStr <$> values) ]}]> f
  | None => f
  end.

Definition setIf (c : bool) (k : string) (v : bval) (query : gmap string bval)
  : gmap string bval :=
  if c then <[k := v]> query else query.

Definition nonEmpty (s : string) : bool := negb (String.eqb s "").

(** The part of [toQuery] after the two [$or] blocks: the plain fields,
    the time window, and the raw clauses, which are merged last and
    override. *)
Definition toQuery_fields (f : Filter) (query : gmap string bval)
  : gmap string bval :=
  let query := setIf (nonEmpty (Target_Type (F_Target f)))
                     "target.type" (BStr (Target_Type (F_Target f))) query in
  let query := setIf (nonEmpty (Target_Value (F_Target f)))
                     "target.value" (BStr (Target_Value (F_Target f))) query in
  let query := setIf (nonEmpty (F_KindType f)) "kind.type" (BStr (F_KindType f)) query in
  let query := setIf (nonEmpty (F_KindName f)) "kind.name" (BStr (F_KindName f)) query in
  let query := setIf (nonEmpty (F_OwnerType f)) "owner.type" (BStr (F_OwnerType f)) query in
  let query := setIf (nonEmpty (F_OwnerName f)) "owner.name" (BStr (F_OwnerName f)) query in
  let timeParts : list bval :=
    (if F_Since f =? 0 then []
     else [BM {[ "starttime" := BM {[ "$gte" := BTime (F_Since f) ]} ]}])
    ++ (if F_Until f =? 0 then []
        else [BM {[ "starttime" := BM {[ "$lte" := BTime (F_Until f) ]} ]}]) in
  let query := setIf (negb (length timeParts =? 0)%nat) "$and" (BArr timeParts) query in
  let query :=
    match F_Running f with
    | Some b => <["running" := BBool b]> query
    | None => query
    end in
  let query := setIf (negb (F_IncludeRemoved f))
                     "removedate" (BM {[ "$exists" := BBool false ]}) query in
  let query := setIf (F_ErrorOnly f) "error" (BM {[ "$ne" := BStr "" ]}) query in
  match F_Raw f with
  | Some raw => raw ∪ query
  | None => query
  end.

Definition toQuery (f : Filter) : option (gmap string bval) * option error :=
  let query : gmap string bval := ∅ in
  let query :=
    match F_Permissions f with
    | Some ps => <["$or" := BArr (permOrBlock ps)]> query
    | None => query
    end in
  match F_AllowedTargets f with
  | Some ats =>
      let orBlock := (fun at_ => BM (targetClause at_)) <$> ats in
      if (length orBlock =? 0)%nat then (None, Some errInvalidQuery)
      else (Some (toQuery_fields f (<["$or" := BArr orBlock]> query)), None)
  | None => (Some (toQuery_fields f query), None)
  end.

(** ** The store and the process state *)

(** The [_id] of a stored event, as [eventID.GetBSON] writes it: the
    object id when there is one, the target document otherwise. *)
Inductive Key :=
| KTarget (t : Target)
| KObjId (o : ObjectId).

#[global] Instance Target_eq_dec : EqDecision Target.
Proof. solve_decision. Defined.

#[global] Instance Target_countable : Countable Target.
Proof.
  refine (inj_countable' (fun t => (Target_Type t, Target_Value t))
                         (fun p => mkTarget p.1 p.2) _).
  by intros [].
Defined.

#[global] Instance Key_eq_dec : EqDecision Key.
Proof. solve_decision. Defined.

#[global] Instance Key_countable : Countable Key.
Proof.
  refine (inj_countable' (fun k => match k with KTarget t => inl t | KObjId o => inr o end)
                         (fun s => match s with inl t => KTarget t | inr o => KObjId o end) _).
  by intros [].
Defined.

Definition zeroTarget : Target := mkTarget "" "".

(** [eventID.GetBSON] *)
Definition key_of (id : eventID) : Key :=
  if negb (String.length (ID_ObjId id) =? 0)%nat then KObjId (ID_ObjId id)
  else KTarget (ID_Target id).

(** [eventID.SetBSON] on a fresh [eventID]: a target document fills
    [Target], anything else fills [ObjId]. *)
Definition id_of_key (k : Key) : eventID :=
  match k with
  | KTarget t => mkEventID t ""
  | KObjId o => mkEventID zeroTarget o
  end.

(** The calls made on the collection, in program order. *)
Inductive StoreOp :=
| OpInsert (k : Key)
| OpFindId (k : Key)
| OpUpdateId (k : Key)
| OpRemoveId (k : Key)
| OpCount (query : gmap string bval)
| OpAll (query : option (gmap string bval)).

(** The state an operation of the package runs in.  [events] is the
    collection [conn.Events()]; [clock] is what [time.Now().UTC()] returns,
    one value for the whole of an operation; [dbConnErr] is the error of
    [db.Conn()], [None] when the connection is there; [throttlingInfo] is
    the package's registry; [updaterSet] is the set of targets kept by
    [lockUpdater.spin], a send on [addCh] or [removeCh] being taken as
    received at once (the goroutine is assumed started and receiving);
    [objectIdCounter] counts the calls of [bson.NewObjectId]; [trace] is the
    log of the calls made on the collection. *)
Record World := mkWorld {
  events : gmap Key eventData;
  clock : Z;
  dbConnErr : option error;
  throttlingInfo : gmap string ThrottlingSpec;
  updaterSet : gset Target;
  objectIdCounter : nat;
  trace : list StoreOp }.

Definition set_events (ev : gmap Key eventData) (w : World) : World :=
  mkWorld ev (clock w) (dbConnErr w) (throttlingInfo w) (updaterSet w)
          (objectIdCounter w) (trace w).

Definition set_updaterSet (s : gset Target) (w : World) : World :=
  mkWorld (events w) (clock w) (dbConnErr w) (throttlingInfo w) s
          (objectIdCounter w) (trace w).

Definition set_throttlingInfo (t : gmap string ThrottlingSpec) (w : World) : World :=
  mkWorld (events w) (clock w) (dbConnErr w) t (updaterSet w)
          (objectIdCounter w) (trace w).

Definition set_objectIdCounter (n : nat) (w : World) : World :=
  mkWorld (events w) (clock w) (dbConnErr w) (throttlingInfo w) (updaterSet w)
          n (trace w).

Definition record (op : StoreOp) (w : World) : World :=
  mkWorld (events w) (clock w) (dbConnErr w) (throttlingInfo w) (updaterSet w)
          (objectIdCounter w) (trace w ++ [op]).

(** Several calls, recorded in order. *)
Definition records (ops : list StoreOp) (w : World) : World :=
  mkWorld (events w) (clock w) (dbConnErr w) (throttlingInfo w) (updaterSet w)
          (objectIdCounter w) (trace w ++ ops).

Definition set_ID (x : eventID) (d : eventData) : eventData :=
  mkEventData x (UniqueID d) (StartTime d) (EndTime d) (Target_ d)
    (StartCustomData d) (EndCustomData d) (OtherCustomData d) (Kind_ d) (Owner_ d)
    (LockUpdateTime d) (Error_ d) (Log d) (RemoveDate d) (CancelInfo d)
    (Cancelable d) (Running d) (Allowed_ d) (AllowedCancel d).

Definition set_EndTime (x : Z) (d : eventData) : eventData :=
  mkEventData (ID d) (UniqueID d) (StartTime d) x (Target_ d)
    (StartCustomData d) (EndCustomData d) (OtherCustomData d) (Kind_ d) (Owner_ d)
    (LockUpdateTime d) (Error_ d) (Log d) (RemoveDate d) (CancelInfo d)
    (Cancelable d) (Running d) (Allowed_ d) (AllowedCancel d).

Definition set_EndCustomData (x : Raw) (d : eventData) : eventData :=
  mkEventData (ID d) (UniqueID d) (StartTime d) (EndTime d) (Target_ d)
    (StartCustomData d) x (OtherCustomData d) (Kind_ d) (Owner_ d)
    (LockUpdateTime d) (Error_ d) (Log d) (RemoveDate d) (CancelInfo d)
    (Cancelable d) (Running d) (Allowed_ d) (AllowedCancel d).

Definition set_OtherCustomData (x : Raw) (d : eventData) : eventData :=
  mkEventData (ID d) (UniqueID d) (StartTime d) (EndTime d) (Target_ d)
    (StartCustomData d) (EndCustomData d) x (Kind_ d) (Owner_ d)
    (LockUpdateTime d) (Error_ d) (Log d) (RemoveDate d) (CancelInfo d)
    (Cancelable d) (Running d) (Allowed_ d) (AllowedCancel d).

Definition set_Error (x : string) (d : eventData) : eventData :=
  mkEventData (ID d) (UniqueID d) (StartTime d) (EndTime d) (Target_ d)
    (StartCustomData d) (EndCustomData d) (OtherCustomData d) (Kind_ d) (Owner_ d)
    (LockUpdateTime d) x (Log d) (RemoveDate d) (CancelInfo d)
    (Cancelable d) (Running d) (Allowed_ d) (AllowedCancel d).

Definition set_Log (x : string) (d : eventData) : eventData :=
  mkEventData (ID d) (UniqueID d) (StartTime d) (EndTime d) (Target_ d)
    (StartCustomData d) (EndCustomData d) (OtherCustomData d) (Kind_ d) (Owner_ d)
    (LockUpdateTime d) (Error_ d) x (RemoveDate d) (CancelInfo d)
    (Cancelable d) (Running d) (Allowed_ d) (AllowedCancel d).

Definition set_Running (x : bool) (d : eventData) : eventData :=
  mkEventData (ID d) (UniqueID d) (StartTime d) (EndTime d) (Target_ d)
    (StartCustomData d) (EndCustomData d) (OtherCustomData d) (Kind_ d) (Owner_ d)
    (LockUpdateTime d) (Error_ d) (Log d) (RemoveDate d) (CancelInfo d)
    (Cancelable d) x (Allowed_ d) (AllowedCancel d).

Definition set_data (d : eventData) (e : Event) : Event :=
  mkEvent d (logBuffer e).

(** [coll.Insert(doc)]: the unique index on [_id] refuses a second document
    under the same key. *)
Definition coll_Insert (d : eventData) (w : World) : option error * World :=
  let k := key_of (ID d) in
  let w := record (OpInsert k) w in
  match events w !! k with
  | Some _ => (Some mgoDuplicateKey, w)
  | None => (None, set_events (<[k := d]> (events w)) w)
  end.

(** [coll.FindId(id).One(&x)] into a fresh [eventData]: [None] stands for
    [mgo.ErrNotFound]; the [_id] read back goes through [SetBSON]. *)
Definition coll_FindId (k : Key) (w : World) : option eventData * World :=
  let w := record (OpFindId k) w in
  (set_ID (id_of_key k) <$> events w !! k, w).

(** [coll.UpdateId(id, doc)] replaces the document stored under [id]. *)
Definition coll_UpdateId (k : Key) (d : eventData) (w : World) : option error * World :=
  let w := record (OpUpdateId k) w in
  match events w !! k with
  | Some _ => (None, set_events (<[k := d]> (events w)) w)
  | None => (Some mgoErrNotFound, w)
  end.

(** [coll.RemoveId(id)] *)
Definition coll_RemoveId (k : Key) (w : World) : option error * World :=
  let w := record (OpRemoveId k) w in
  match events w !! k with
  | Some _ => (None, set_events (delete k (events w)) w)
  | None => (Some mgoErrNotFound, w)
  end.

(** [updater.addCh <- &t] and [updater.removeCh <- &t], as [spin] applies
    them to its set. *)
Definition updater_add (t : Target) (w : World) : World :=
  set_updaterSet ({[ t ]} ∪ updaterSet w) w.

Definition updater_remove (t : Target) (w : World) : World :=
  set_updaterSet (updaterSet w ∖ {[ t ]}) w.

(** ** Custom data *)

(** A Go value held in an [interface{}], as far as [reflect] tells its
    shape.  [GoNil] is the nil interface; [GoPtr None] is a typed nil
    pointer and [GoPtr (Some v)] a pointer to [v]. *)
#[warnings="-register-all"]
Inductive GoValue :=
| GoNil
| GoPtr (elem : option GoValue)
| GoMap (entries : list (string * GoValue))
| GoStruct (fields : list (string * GoValue))
| GoArray (elems : list GoValue)
| GoSlice (elems : list GoValue)
| GoBool (b : bool)
| GoInt (n : Z)
| GoFloat64 (bits : Z)
| GoString (s : string)
| GoChan
| GoFunc.

(** [reflect.Kind], for the kinds a [GoValue] can have. *)
Inductive reflectKind :=
| Interface | Ptr | Map | Struct | Array | Slice
| Bool | Int | Float64 | String_ | Chan | Func.

(** [v.Kind()]; [GoNil] is met only behind a pointer, as the value of an
    interface variable. *)
Definition Value_Kind (v : GoValue) : reflectKind :=
  match v with
  | GoNil => Interface
  | GoPtr _ => Ptr
  | GoMap _ => Map
  | GoStruct _ => Struct
  | GoArray _ => Array
  | GoSlice _ => Slice
  | GoBool _ => Bool
  | GoInt _ => Int
  | GoFloat64 _ => Float64
  | GoString _ => String_
  | GoChan => Chan
  | GoFunc => Func
  end.

(** ** Collaborators

    What the package calls and the sources do not hold: the BSON encoder
    and the object-id generator of the driver, the block registry
    ([checkIsBlocked], defined in another file of the package), the
    evaluation of a query by the store, and the formatting verbs of [fmt]
    and [time]. *)
Class Collaborators := {
  bson_Marshal : GoValue -> list Byte.byte * option error;
  bson_NewObjectId : nat -> ObjectId;
  checkIsBlocked : Event -> World -> option error;
  Query_Count : gmap string bval -> gmap Key eventData -> Z * option error;
  Query_All : option (gmap string bval) -> string -> option Z -> option Z ->
              gmap Key eventData -> list eventData * option error;
  fmt_T : GoValue -> string;
  fmt_sharp_v : GoValue -> string;
  fmt_d : Z -> string;
  fmt_q : string -> string;
  Duration_String : Z -> string;
  Time_Format_RFC3339 : Z -> string }.

(** [auth.Token], an interface used through three of its methods. *)
Record Token := mkToken {
  IsAppToken : bool;
  GetAppName : string;
  GetUserName : string }.

Record Opts := mkOpts {
  O_Target : Target;
  O_Kind : option PermissionScheme;
  O_InternalKind : string;
  O_Owner : option Token;
  O_RawOwner : Owner;
  O_CustomData : GoValue;
  O_DisableLock : bool;
  O_Cancelable : bool;
  O_Allowed : AllowedPermission;
  O_AllowedCancel : AllowedPermission }.

Definition is_Some_bool {A} (x : option A) : bool :=
  match x with Some _ => true | None => false end.

(** The shapes of custom data: the nil interface or a nil pointer; and,
    for the value looked at once a pointer is followed, a map or struct
    (document-like) or an array or slice (array-like). *)
Definition isNilInput (in_ : GoValue) : bool :=
  match in_ with GoNil | GoPtr None => true | _ => false end.

Definition pointee (in_ : GoValue) : GoValue :=
  match in_ with GoPtr (Some elem) => elem | _ => in_ end.

Definition documentLike (v : GoValue) : bool :=
  match Value_Kind v with Map | Struct => true | _ => false end.

Definition arrayLike (v : GoValue) : bool :=
  match Value_Kind v with Array | Slice => true | _ => false end.

Section Package.

Context `{Collaborators}.

(** The block [if v.Kind() == reflect.Ptr] of [makeBSONRaw]: [None] when
    the pointer is nil, else the value the switch looks at. *)
Definition derefPtr (v : GoValue) : option GoValue :=
  match v with
  | GoPtr None => None
  | GoPtr (Some elem) => Some elem
  | _ => Some v
  end.

(** The marshal gate for custom data; 3 is the BSON kind of a document and
    4 that of an array. *)
Definition makeBSONRaw (in_ : GoValue) : Raw * option error :=
  match in_ with
  | GoNil => (Raw_zero, None)
  | _ =>
    match derefPtr in_ with
    | None => (Raw_zero, None)
    | Some v =>
      let kind : option Z :=
        match Value_Kind v with
        | Map | Struct => Some 3
        | Array | Slice => Some 4
        | _ => None
        end in
      match kind with
      | None =>
          (Raw_zero,
           Some (errorString ("cannot use type " +:+ fmt_T in_ +:+ " as event custom data")))
      | Some kind =>
          let '(data, err) := bson_Marshal in_ in
          match err with
          | Some err => (Raw_zero, Some err)
          | None =>
              if (length data =? 0)%nat then
                (Raw_zero,
                 Some (errorString
                         ("invalid empty bson object for object " +:+ fmt_sharp_v in_)))
              else (mkRaw kind data, None)
          end
      end
    end
  end.

(** ** Error messages *)

Definition Owner_String (o : Owner) : string :=
  Owner_Type o +:+ " " +:+ Owner_Name o.

Definition Kind_String (k : Kind) : string := Kind_Name k.

Definition Event_String (e : Event) : string :=
  Target_Type (Target_ (data e)) +:+ "(" +:+ Target_Value (Target_ (data e))
  +:+ ") running " +:+ fmt_q (Kind_String (Kind_ (data e)))
  +:+ " start by " +:+ Owner_String (Owner_ (data e))
  +:+ " at " +:+ Time_Format_RFC3339 (StartTime (data e)).

(** The method [Error()] of each error.  The text of the store's
    duplicate-key error is the server's; the package never reads it. *)
Definition Error (err : error) : string :=
  match err with
  | ErrValidation msg => msg
  | errorString msg => msg
  | ErrThrottled spec target =>
      let extra := if nonEmpty (Spec_KindName spec)
                   then " " +:+ Spec_KindName spec +:+ " on" else "" in
      "event throttled, limit for" +:+ extra +:+ " " +:+ Target_Type target
      +:+ " " +:+ fmt_q (Target_Value target) +:+ " is " +:+ fmt_d (Spec_Max spec)
      +:+ " every " +:+ Duration_String (Spec_Time spec)
  | ErrEventLocked event => "event locked: " +:+ Event_String event
  | mgoErrNotFound => "not found"
  | mgoDuplicateKey => "E11000 duplicate key error"
  end.

(** ** Completion *)

(** [(e *Event) done(evtErr, customData, abort)]: the result is the error
    returned, the event as the call leaves it in memory, and the state.  The
    deferred [coll.RemoveId(e.ID)] takes its argument when the [defer]
    statement runs, hence the id before the rewrite, and runs after the
    insert. *)
Definition done (e : Event) (evtErr : option error) (customData : GoValue)
    (abort : bool) (w : World) : option error * Event * World :=
  let w := updater_remove (Target_ (data e)) w in
  match dbConnErr w with
  | Some err => (Some err, e, w)
  | None =>
    if abort then
      let '(err, w) := coll_RemoveId (key_of (ID (data e))) w in (err, e, w)
    else
      let d := data e in
      let d := match evtErr with
               | Some evtErr => set_Error (Error evtErr) d
               | None => if CI_Canceled (CancelInfo d)
                         then set_Error "canceled by user request" d else d
               end in
      let d := set_EndTime (clock w) d in
      let '(raw, err) := makeBSONRaw customData in
      let d := set_EndCustomData raw d in
      match err with
      | Some err => (Some err, set_data d e, w)
      | None =>
        let d := set_Running false d in
        let d := set_Log (logBuffer e) d in
        let '(dbEvt, w) := coll_FindId (key_of (ID d)) w in
        let d := match dbEvt with
                 | Some dbEvt => set_OtherCustomData (OtherCustomData dbEvt) d
                 | None => d
                 end in
        if negb (String.length (ID_ObjId (ID d)) =? 0)%nat then
          let '(err, w) := coll_UpdateId (key_of (ID d)) d w in
          (err, set_data d e, w)
        else
          let deferred := key_of (ID d) in
          let d := set_ID (mkEventID zeroTarget (UniqueID d)) d in
          let '(err, w) := coll_Insert d w in
          let '(_, w) := coll_RemoveId deferred w in
          (err, set_data d e, w)
      end
  end.

Definition Abort (e : Event) (w : World) := done e None GoNil true w.

Definition Done (e : Event) (evtErr : option error) (w : World) :=
  done e evtErr GoNil false w.

Definition DoneCustomData (e : Event) (evtErr : option error)
    (customData : GoValue) (w : World) :=
  done e evtErr customData false w.

(** ** The lock *)

(** [checkIsExpired(coll, id)]: the event read back has an empty log
    buffer. *)
Definition checkIsExpired (id : eventID) (w : World) : bool * World :=
  let '(found, w) := coll_FindId (key_of id) w in
  match found with
  | Some existingEvt =>
      let now := clock w in
      let lastUpdate := LockUpdateTime existingEvt in
      if lastUpdate + lockExpireTimeout <? now then
        let '(_, _, w) :=
          Done (mkEvent existingEvt "")
               (Some (errorString ("event expired, no update for "
                                   +:+ Duration_String (now - lastUpdate)))) w in
        (true, w)
      else (false, w)
  | None => (false, w)
  end.

(** ** Throttling *)

Definition SetThrottling (spec : ThrottlingSpec) (w : World) : World :=
  let key := if nonEmpty (Spec_KindName spec)
             then Spec_TargetType spec +:+ "_" +:+ Spec_KindName spec
             else Spec_TargetType spec in
  set_throttlingInfo (<[key := spec]> (throttlingInfo w)) w.

Definition getThrottling (t : Target) (k : Kind) (w : World) : option ThrottlingSpec :=
  let key := Target_Type t +:+ "_" +:+ Kind_Name k in
  match throttlingInfo w !! key with
  | Some s => Some s
  | None =>
      match throttlingInfo w !! Target_Type t with
      | Some s => Some s
      | None => None
      end
  end.

(** The query counted by [newEvt] for an active spec. *)
Definition throttlingQuery (t : Target) (tSpec : ThrottlingSpec) (now : Z)
  : gmap string bval :=
  let query : gmap string bval :=
    {[ "target.type" := BStr (Target_Type t);
       "target.value" := BStr (Target_Value t);
       "starttime" := BM {[ "$gt" := BTime (now + - Spec_Time tSpec) ]} ]} in
  setIf (nonEmpty (Spec_KindName tSpec)) "kind.name" (BStr (Spec_KindName tSpec)) query.

(** The throttling block of [newEvt]. *)
Definition checkThrottling (t : Target) (k : Kind) (w : World) : option error * World :=
  match getThrottling t k w with
  | Some tSpec =>
      if (0 <? Spec_Max tSpec) && (0 <? Spec_Time tSpec) then
        let query := throttlingQuery t tSpec (clock w) in
        let w := record (OpCount query) w in
        let '(c, err) := Query_Count query (events w) in
        match err with
        | Some err => (Some err, w)
        | None =>
            if Spec_Max tSpec <=? c then (Some (ErrThrottled tSpec t), w)
            else (None, w)
        end
      else (None, w)
  | None => (None, w)
  end.

(** ** Creation *)

(** The checks of [newEvt] on the options, before anything is read. *)
Definition checkOpts (opts : Opts) : option error :=
  if negb (Target_IsValid (O_Target opts)) then Some ErrNoTarget
  else if String.eqb (Scheme (O_Allowed opts)) ""
          && (length (Contexts (O_Allowed opts)) =? 0)%nat
  then Some ErrNoAllowed
  else if O_Cancelable opts
          && String.eqb (Scheme (O_AllowedCancel opts)) ""
          && (length (Contexts (O_AllowedCancel opts)) =? 0)%nat
  then Some ErrNoAllowedCancel
  else None.

Definition optsKind (opts : Opts) : Kind * option error :=
  match O_Kind opts with
  | None =>
      if String.eqb (O_InternalKind opts) "" then (mkKind "" "", Some ErrNoKind)
      else (mkKind KindTypeInternal (O_InternalKind opts), None)
  | Some scheme => (mkKind KindTypePermission (FullName scheme), None)
  end.

Definition optsOwner (opts : Opts) : Owner :=
  match O_Owner opts with
  | None =>
      if nonEmpty (Owner_Name (O_RawOwner opts)) && nonEmpty (Owner_Type (O_RawOwner opts))
      then O_RawOwner opts
      else mkOwner OwnerTypeInternal ""
  | Some token =>
      if IsAppToken token then mkOwner OwnerTypeApp (GetAppName token)
      else mkOwner OwnerTypeUser (GetUserName token)
  end.

(** The event [newEvt] builds before the insert. *)
Definition initialEvent (opts : Opts) (k : Kind) (o : Owner) (raw : Raw)
    (uniqID : ObjectId) (now : Z) : Event :=
  let id := if O_DisableLock opts then mkEventID zeroTarget uniqID
            else mkEventID (O_Target opts) "" in
  mkEvent
    {| ID := id;
       UniqueID := uniqID;
       StartTime := now;
       EndTime := 0;
       Target_ := O_Target opts;
       StartCustomData := raw;
       EndCustomData := Raw_zero;
       OtherCustomData := Raw_zero;
       Kind_ := k;
       Owner_ := o;
       LockUpdateTime := now;
       Error_ := "";
       Log := "";
       RemoveDate := 0;
       CancelInfo := mkCancelInfo "" 0 0 "" false false;
       Cancelable := O_Cancelable opts;
       Running := true;
       Allowed_ := O_Allowed opts;
       AllowedCancel := O_AllowedCancel opts |}
    "".

(** The insert loop of [newEvt], [for i := 0; i < maxRetries+1; i++]; every
    test of the loop condition takes one unit of [fuel], and [None] is the
    loop still running when the fuel is spent. *)
Fixpoint insertLoop (fuel : nat) (opts : Opts) (evt : Event) (i maxRetries : nat)
    (err : option error) (w : World) : option (option Event * option error * World) :=
  match fuel with
  | O => None
  | S fuel =>
    if (i <? maxRetries + 1)%nat then
      let '(err, w) := coll_Insert (data evt) w in
      match err with
      | None =>
          match checkIsBlocked evt w with
          | Some err =>
              let '(_, _, w) := Done evt (Some err) w in
              Some (None, Some err, w)
          | None =>
              let w := if negb (O_DisableLock opts) then updater_add (O_Target opts) w
                       else w in
              Some (Some evt, None, w)
          end
      | Some insErr =>
          if mgo_IsDup insErr then
            let '(expired, w) :=
              if (maxRetries <=? i)%nat then (false, w)
              else checkIsExpired (ID (data evt)) w in
            if (maxRetries <=? i)%nat || negb expired then
              let '(existing, w) := coll_FindId (key_of (ID (data evt))) w in
              match existing with
              | None => insertLoop fuel opts evt (i + 1) (maxRetries + 1) (Some mgoErrNotFound) w
              | Some existing =>
                  insertLoop fuel opts evt (i + 1) maxRetries
                             (Some (ErrEventLocked (mkEvent existing ""))) w
              end
            else insertLoop fuel opts evt (i + 1) maxRetries (Some insErr) w
          else Some (None, Some insErr, w)
      end
    else Some (None, err, w)
  end.

(** [newEvt] first calls [updater.start()], which the model takes as done
    (see [World]). *)
Definition newEvt (fuel : nat) (opts : option Opts) (w : World)
  : option (option Event * option error * World) :=
  match opts with
  | None => Some (None, Some ErrNoOpts, w)
  | Some opts =>
    match checkOpts opts with
    | Some err => Some (None, Some err, w)
    | None =>
      let '(k, err) := optsKind opts in
      match err with
      | Some err => Some (None, Some err, w)
      | None =>
        let o := optsOwner opts in
        match dbConnErr w with
        | Some err => Some (None, Some err, w)
        | None =>
          let '(err, w) := checkThrottling (O_Target opts) k w in
          match err with
          | Some err => Some (None, Some err, w)
          | None =>
            let now := clock w in
            let '(raw, err) := makeBSONRaw (O_CustomData opts) in
            match err with
            | Some err => Some (None, Some err, w)
            | None =>
              let uniqID := bson_NewObjectId (objectIdCounter w) in
              let w := set_objectIdCounter (S (objectIdCounter w)) w in
              insertLoop fuel opts (initialEvent opts k o raw uniqID now) 0 1 None w
            end
          end
        end
      end
    end
  end.

Definition New (fuel : nat) (opts : option Opts) (w : World)
  : option (option Event * option error * World) :=
  match opts with
  | None => Some (None, Some ErrNoOpts, w)
  | Some o =>
      if negb (is_Some_bool (O_Owner o)) && String.eqb (Owner_Name (O_RawOwner o)) ""
         && String.eqb (Owner_Type (O_RawOwner o)) ""
      then Some (None, Some ErrNoOwner, w)
      else match O_Kind o with
           | None => Some (None, Some ErrNoKind, w)
           | Some _ => newEvt fuel opts w
           end
  end.

Definition NewInternal (fuel : nat) (opts : option Opts) (w : World)
  : option (option Event * option error * World) :=
  match opts with
  | None => Some (None, Some ErrNoOpts, w)
  | Some o =>
      match O_Owner o, O_Kind o with
      | Some _, _ => Some (None, Some ErrInvalidOwner, w)
      | None, Some _ => Some (None, Some ErrInvalidKind, w)
      | None, None =>
          if String.eqb (O_InternalKind o) "" then Some (None, Some ErrNoInternalKind, w)
          else newEvt fuel opts w
      end
  end.

(** ** Listing *)

(** [err == errInvalidQuery]: the only error [toQuery] returns is that
    value itself. *)
Definition is_errInvalidQuery (err : error) : bool :=
  match err with
  | errorString msg => String.eqb msg "invalid query"
  | _ => false
  end.

Definition List (filter : option Filter) (w : World) : list Event * option error * World :=
  let limit := 0 in
  let skip := 0 in
  let sort := "-starttime" in
  let run (query : option (gmap string bval)) (sort : string) (limit skip : Z)
      : list Event * option error * World :=
    match dbConnErr w with
    | Some err => ([], Some err, w)
    | None =>
        let w := record (OpAll query) w in
        let '(allData, err) :=
          Query_All query sort (if 0 <? limit then Some limit else None)
                    (if 0 <? skip then Some skip else None) (events w) in
        match err with
        | Some err => ([], Some err, w)
        | None => ((fun d => mkEvent d "") <$> allData, None, w)
        end
    end in
  match filter with
  | None => run None sort limit skip
  | Some filter =>
      let limit := if negb (F_Limit filter =? 0) then F_Limit filter else filterMaxLimit in
      let sort := if nonEmpty (F_Sort filter) then F_Sort filter else sort in
      let skip := if 0 <? F_Skip filter then F_Skip filter else skip in
      let '(query, err) := toQuery filter in
      match err with
      | Some err =>
          if is_errInvalidQuery err then ([], None, w)
          else ([], Some err, w)
      | None => run query sort limit skip
      end
  end.

End Package.

(** ** What [done] writes

    The error text [done] leaves in the event, and the event data it
    writes when nothing fails before the write; [other] is the
    [otherCustomData] kept after the re-read.  Both are used to state what
    [done] returns. *)
Section Closing.

Context `{Collaborators}.

Definition doneMessage (e : Event) (evtErr : option error) : string :=
  match evtErr with
  | Some err => Error err
  | None => if CI_Canceled (CancelInfo (data e)) then "canceled by user request"
            else Error_ (data e)
  end.

Definition closedData (e : Event) (evtErr : option error) (now : Z) (other : Raw)
  : eventData :=
  set_OtherCustomData other
    (set_Log (logBuffer e)
       (set_Running false
          (set_EndCustomData Raw_zero
             (set_EndTime now (set_Error (doneMessage e evtErr) (data e)))))).

Definition rereadOther (e : Event) (w : World) : Raw :=
  match events w !! key_of (ID (data e)) with
  | Some dbEvt => OtherCustomData dbEvt
  | None => OtherCustomData (data e)
  end.

End Closing.

(** ** The rest of the package

    The other operations of the package on the collection, the form helper
    and the migration loop.  The calls they make that are neither by id nor
    a count nor the listing ([Apply], [UpdateAll], [One] on a query) are
    evaluated on the collection directly and are not written to [trace]. *)

Definition set_CancelInfo (x : cancelInfo) (d : eventData) : eventData :=
  mkEventData (ID d) (UniqueID d) (StartTime d) (EndTime d) (Target_ d)
    (StartCustomData d) (EndCustomData d) (OtherCustomData d) (Kind_ d) (Owner_ d)
    (LockUpdateTime d) (Error_ d) (Log d) (RemoveDate d) x
    (Cancelable d) (Running d) (Allowed_ d) (AllowedCancel d).

Definition set_RemoveDate (x : Z) (d : eventData) : eventData :=
  mkEventData (ID d) (UniqueID d) (StartTime d) (EndTime d) (Target_ d)
    (StartCustomData d) (EndCustomData d) (OtherCustomData d) (Kind_ d) (Owner_ d)
    (LockUpdateTime d) (Error_ d) (Log d) x (CancelInfo d)
    (Cancelable d) (Running d) (Allowed_ d) (AllowedCancel d).

Definition set_StartCustomData (x : Raw) (d : eventData) : eventData :=
  mkEventData (ID d) (UniqueID d) (StartTime d) (EndTime d) (Target_ d)
    x (EndCustomData d) (OtherCustomData d) (Kind_ d) (Owner_ d)
    (LockUpdateTime d) (Error_ d) (Log d) (RemoveDate d) (CancelInfo d)
    (Cancelable d) (Running d) (Allowed_ d) (AllowedCancel d).

(** [(e *Event) Write(data)]: the bytes go to the log buffer, whose [Write]
    returns their number and no error (the optional [logWriter] gets them
    too). *)
Definition Event_Write (e : Event) (bytes : string) : Z * option error * Event :=
  (Z.of_nat (String.length bytes), None, mkEvent (data e) (logBuffer e +:+ bytes)).

(** [GetRunning(target, kind)]: the query is on [_id], which is the target
    document of [eventID{Target: target}], on [kind.name] and on
    [running]. *)
Definition GetRunning (target : Target) (kind : string) (w : World)
  : option Event * option error :=
  match dbConnErr w with
  | Some err => (None, Some err)
  | None =>
      let k := key_of (mkEventID target "") in
      match events w !! k with
      | Some row =>
          if String.eqb (Kind_Name (Kind_ row)) kind && Running row
          then (Some (mkEvent (set_ID (id_of_key k) row) ""), None)
          else (None, Some ErrEventNotFound)
      | None => (None, Some ErrEventNotFound)
      end
  end.

(** [GetByID(id)]: [One] returns the first document of the collection whose
    [uniqueid] is [id]; the store's order is taken to be that of
    [map_to_list]. *)
Definition GetByID (id : ObjectId) (w : World) : option Event * option error :=
  match dbConnErr w with
  | Some err => (None, Some err)
  | None =>
      match list_find (fun kd : Key * eventData => UniqueID kd.2 = id)
                      (map_to_list (events w)) with
      | Some (_, (k, row)) => (Some (mkEvent (set_ID (id_of_key k) row) ""), None)
      | None => (None, Some ErrEventNotFound)
      end
  end.

(** [MarkAsRemoved(target)]: [UpdateAll] sets [removedate] on every
    document whose [target] is the given document and that has no
    [removedate].  Both fields are [omitempty]: a zero target and a zero
    date are absent from the stored document, so a zero target matches
    nothing. *)
Definition MarkAsRemoved (target : Target) (w : World) : option error * World :=
  match dbConnErr w with
  | Some err => (Some err, w)
  | None =>
      let now := clock w in
      (None,
       set_events
         ((fun d => if bool_decide (Target_ d = target)
                       && negb (bool_decide (Target_ d = zeroTarget))
                       && (RemoveDate d =? 0)
                    then set_RemoveDate now d else d) <$> events w) w)
  end.

(** [(e *Event) TryCancel(reason, owner)]: [Apply] with [ReturnNew] changes
    the document found by [_id] and [cancelinfo.asked = false] and reads the
    new document into [e.eventData]. *)
Definition TryCancel (e : Event) (reason owner : string) (w : World)
  : option error * Event * World :=
  if negb (Cancelable (data e)) || negb (Running (data e))
  then (Some ErrNotCancelable, e, w)
  else
    match dbConnErr w with
    | Some err => (Some err, e, w)
    | None =>
        let k := key_of (ID (data e)) in
        match events w !! k with
        | Some row =>
            if negb (CI_Asked (CancelInfo row)) then
              let row := set_CancelInfo (mkCancelInfo owner (clock w) 0 reason true false) row in
              (None, set_data (set_ID (id_of_key k) row) e,
               set_events (<[k := row]> (events w)) w)
            else (Some ErrEventNotFound, e, w)
        | None => (Some ErrEventNotFound, e, w)
        end
    end.

(** [(e *Event) AckCancel()] *)
Definition AckCancel (e : Event) (w : World) : bool * option error * Event * World :=
  if negb (Cancelable (data e)) || negb (Running (data e))
  then (false, None, e, w)
  else
    match dbConnErr w with
    | Some err => (false, Some err, e, w)
    | None =>
        let k := key_of (ID (data e)) in
        match events w !! k with
        | Some row =>
            if CI_Asked (CancelInfo row) then
              let ci := CancelInfo row in
              let row := set_CancelInfo
                           (mkCancelInfo (CI_Owner ci) (CI_StartTime ci) (clock w)
                                         (CI_Reason ci) (CI_Asked ci) true) row in
              (true, None, set_data (set_ID (id_of_key k) row) e,
               set_events (<[k := row]> (events w)) w)
            else (false, None, e, w)
        | None => (false, None, e, w)
        end
    end.

(** [FormToCustomData(form)]: [url.Values] is a map from a key to its
    values; each entry gives the map [{"name": k, "value": val}], with the
    only value when there is exactly one and the slice of values otherwise.
    Go leaves the order of [range form] unspecified; the model takes that
    of [map_to_list]. *)
Definition formValue (v : list string) : GoValue :=
  match v with
  | [x] => GoString x
  | _ => GoSlice (GoString <$> v)
  end.

Definition formEntry (k : string) (v : list string) : GoValue :=
  GoMap [("name", GoString k); ("value", formValue v)].

Definition FormToCustomData (form : gmap string (list string)) : list GoValue :=
  (fun kv : string * list string => formEntry kv.1 kv.2) <$> map_to_list form.

Section PackageRest.

Context `{Collaborators}.

(** [(e *Event) RawInsert(start, other, end)] *)
Definition RawInsert (e : Event) (start other end_ : GoValue) (w : World)
  : option error * Event * World :=
  let d := set_ID (mkEventID zeroTarget (UniqueID (data e))) (data e) in
  let '(raw, err) := makeBSONRaw start in
  let d := set_StartCustomData raw d in
  match err with
  | Some err => (Some err, set_data d e, w)
  | None =>
    let '(raw, err) := makeBSONRaw other in
    let d := set_OtherCustomData raw d in
    match err with
    | Some err => (Some err, set_data d e, w)
    | None =>
      let '(raw, err) := makeBSONRaw end_ in
      let d := set_EndCustomData raw d in
      match err with
      | Some err => (Some err, set_data d e, w)
      | None =>
        match dbConnErr w with
        | Some err => (Some err, set_data d e, w)
        | None => let '(err, w) := coll_Insert d w in (err, set_data d e, w)
        end
      end
    end
  end.

(** The loop of [Migrate] over the documents its cursor yields: the callback
    gets a pointer to the event and may change it; [wrap] is
    [errors.Wrapf(err, format, evt)], whose text the package does not
    read. *)
Fixpoint migrateLoop (wrap : string -> Event -> error -> error)
    (cb : Event -> Event * option error) (yielded : list eventData) (w : World)
  : option error * World :=
  match yielded with
  | [] => (None, w)
  | evtData :: rest =>
      let '(evt, err) := cb (mkEvent evtData "") in
      match err with
      | Some err => (Some (wrap "unable to migrate %#v" evt err), w)
      | None =>
          let '(err, w) := coll_UpdateId (key_of (ID (data evt))) (data evt) w in
          match err with
          | Some err => (Some (wrap "unable to update %#v" evt err), w)
          | None => migrateLoop wrap cb rest w
          end
      end
  end.

(** [Migrate(query, cb)], given what [coll.Find(query).Iter()] yields and
    what [iter.Close()] returns. *)
Definition Migrate (wrap : string -> Event -> error -> error)
    (yielded : list eventData) (closeErr : option error)
    (cb : Event -> Event * option error) (w : World) : option error * World :=
  match dbConnErr w with
  | Some err => (Some err, w)
  | None =>
      let '(err, w) := migrateLoop wrap cb yielded w in
      match err with
      | Some err => (Some err, w)
      | None => (closeErr, w)
      end
  end.

End PackageRest.

(** ** Creation among the other clients of the store

    [newEvt] is not alone on the collection: between two of its store
    calls another client may create, finish or remove an event.  A
    [Writers] gives the collection that the next store call finds, from
    the state the previous call left; the log of the calls made so far is
    part of that state, so that one [Writers] describes a whole schedule.
    [quiet] is the store without other clients.  The other clients act
    before every insert of the loop, before the expiry check and before
    every read of the stored event; the expiry check with the [Done] of
    the holder is taken as one operation, and so is the [Done] of a blocked
    event. *)
Definition Writers : Type := World -> gmap Key eventData.

Definition quiet : Writers := events.

Definition turn (others : Writers) (w : World) : World := set_events (others w) w.


Section Among.

Context `{Collaborators}.

Variable others : Writers.

(** The insert loop of [newEvt], as [insertLoop], among [others]. *)
Fixpoint insertLoopAmong (fuel : nat) (opts : Opts) (evt : Event) (i maxRetries : nat)
    (err : option error) (w : World) : option (option Event * option error * World) :=
  match fuel with
  | O => None
  | S fuel =>
    if (i <? maxRetries + 1)%nat then
      let '(err, w) := coll_Insert (data evt) (turn others w) in
      match err with
      | None =>
          match checkIsBlocked evt w with
          | Some err =>
              let '(_, _, w) := Done evt (Some err) w in
              Some (None, Some err, w)
          | None =>
              let w := if negb (O_DisableLock opts) then updater_add (O_Target opts) w
                       else w in
              Some (Some evt, None, w)
          end
      | Some insErr =>
          if mgo_IsDup insErr then
            let '(expired, w) :=
              if (maxRetries <=? i)%nat then (false, w)
              else checkIsExpired (ID (data evt)) (turn others w) in
            if (maxRetries <=? i)%nat || negb expired then
              let '(existing, w) := coll_FindId (key_of (ID (data evt))) (turn others w) in
              match existing with
              | None =>
                  insertLoopAmong fuel opts evt (i + 1) (maxRetries + 1)
                                  (Some mgoErrNotFound) w
              | Some existing =>
                  insertLoopAmong fuel opts evt (i + 1) maxRetries
                                  (Some (ErrEventLocked (mkEvent existing ""))) w
              end
            else insertLoopAmong fuel opts evt (i + 1) maxRetries (Some insErr) w
          else Some (None, Some insErr, w)
      end
    else Some (None, err, w)
  end.

(** [newEvt] among [others]: the checks and the throttling of [newEvt],
    then the loop above. *)
Definition newEvtAmong (fuel : nat) (opts : option Opts) (w : World)
  : option (option Event * option error * World) :=
  match opts with
  | None => Some (None, Some ErrNoOpts, w)
  | Some opts =>
    match checkOpts opts with
    | Some err => Some (None, Some err, w)
    | None =>
      let '(k, err) := optsKind opts in
      match err with
      | Some err => Some (None, Some err, w)
      | None =>
        let o := optsOwner opts in
        match dbConnErr w with
        | Some err => Some (None, Some err, w)
        | None =>
          let '(err, w) := checkThrottling (O_Target opts) k w in
          match err with
          | Some err => Some (None, Some err, w)
          | None =>
            let now := clock w in
            let '(raw, err) := makeBSONRaw (O_CustomData opts) in
            match err with
            | Some err => Some (None, Some err, w)
            | None =>
              let uniqID := bson_NewObjectId (objectIdCounter w) in
              let w := set_objectIdCounter (S (objectIdCounter w)) w in
              insertLoopAmong fuel opts (initialEvent opts k o raw uniqID now) 0 1 None w
            end
          end
        end
      end
    end
  end.

End Among.

(** ** Sample collaborators and inputs

    A small instance of the collaborators, to run the operations on
    concrete inputs: the encoder writes the five bytes of the empty
    document whatever the value, object ids are numbered, nothing is
    blocked, [Count] counts the stored events of the target named by the
    query's [target.type] and [target.value] that started after the bound
    under [starttime.$gt], and [All] returns every stored event. *)

Definition sampleMarshal (v : GoValue) : list Byte.byte * option error :=
  ([Byte.x05; Byte.x00; Byte.x00; Byte.x00; Byte.x00], None).

Definition sampleObjectId (n : nat) : ObjectId :=
  String (Ascii.ascii_of_nat (65 + n)) "-object-id".

Definition sampleCount (query : gmap string bval) (evs : gmap Key eventData)
  : Z * option error :=
  match query !! "target.type", query !! "target.value", query !! "starttime" with
  | Some (BStr ty), Some (BStr va), Some (BM bound) =>
      match bound !! "$gt" with
      | Some (BTime t0) =>
          (Z.of_nat
             (length (filter (fun kd => Target_Type (Target_ kd.2) = ty
                                        ∧ Target_Value (Target_ kd.2) = va
                                        ∧ t0 < StartTime kd.2)
                             (map_to_list evs))), None)
      | _ => (0, Some (errorString "bad query"))
      end
  | _, _, _ => (0, Some (errorString "bad query"))
  end.

Definition sampleAll (query : option (gmap string bval)) (sort : string)
    (limit skip : option Z) (evs : gmap Key eventData) : list eventData * option error :=
  (snd <$> map_to_list evs, None).

Definition sampleCollaborators : Collaborators :=
  {| bson_Marshal := sampleMarshal;
     bson_NewObjectId := sampleObjectId;
     checkIsBlocked := fun _ _ => None;
     Query_Count := sampleCount;
     Query_All := sampleAll;
     fmt_T := fun _ => "T";
     fmt_sharp_v := fun _ => "v";
     fmt_d := fun _ => "d";
     fmt_q := fun s => s;
     Duration_String := fun _ => "5m1s";
     Time_Format_RFC3339 := fun _ => "t" |}.

Definition sampleFilter : Filter :=
  {| F_Target := zeroTarget;
     F_KindType := "";
     F_KindName := "";
     F_OwnerType := "";
     F_OwnerName := "";
     F_Since := 0;
     F_Until := 0;
     F_Running := None;
     F_IncludeRemoved := false;
     F_ErrorOnly := false;
     F_Raw := None;
     F_AllowedTargets := None;
     F_Permissions := None;
     F_Limit := 0;
     F_Skip := 0;
     F_Sort := "" |}.

Definition withAccess (perms : option (list Permission))
    (targets : option (list TargetFilter)) (f : Filter) : Filter :=
  {| F_Target := F_Target f;
     F_KindType := F_KindType f;
     F_KindName := F_KindName f;
     F_OwnerType := F_OwnerType f;
     F_OwnerName := F_OwnerName f;
     F_Since := F_Since f;
     F_Until := F_Until f;
     F_Running := F_Running f;
     F_IncludeRemoved := F_IncludeRemoved f;
     F_ErrorOnly := F_ErrorOnly f;
     F_Raw := F_Raw f;
     F_AllowedTargets := targets;
     F_Permissions := perms;
     F_Limit := F_Limit f;
     F_Skip := F_Skip f;
     F_Sort := F_Sort f |}.

(** A caller allowed [app.deploy] on team [t1] and the targets of type
    [app]. *)
Definition deployOnT1 : Permission :=
  mkPermission (mkScheme "app.deploy") (mkCtx "team" "t1").

Definition bothFilter : Filter :=
  withAccess (Some [deployOnT1]) (Some [mkTargetFilter "app" None]) sampleFilter.

Definition emptyWorld : World :=
  {| events := ∅;
     clock := 1000 * 1000000000;
     dbConnErr := None;
     throttlingInfo := ∅;
     updaterSet := ∅;
     objectIdCounter := 0;
     trace := [] |}.

(** An application target, the options of a deploy on it by a user, and a
    stored event that holds the target since [lockUpdateTime]. *)
Definition myapp : Target := mkTarget "app" "myapp".

Definition sampleOpts : Opts :=
  {| O_Target := myapp;
     O_Kind := Some (mkScheme "app.deploy");
     O_InternalKind := "";
     O_Owner := Some (mkToken false "" "alice");
     O_RawOwner := mkOwner "" "";
     O_CustomData := GoNil;
     O_DisableLock := false;
     O_Cancelable := true;
     O_Allowed := mkAllowed "app.deploy" [mkCtx "team" "t1"];
     O_AllowedCancel := mkAllowed "app.deploy" [mkCtx "team" "t1"] |}.

Definition sampleKind : Kind := mkKind KindTypePermission "app.deploy".

Definition heldEvent (id : eventID) (uniqueID : ObjectId) (startTime lockUpdateTime : Z)
    (canceled : bool) : eventData :=
  {| ID := id;
     UniqueID := uniqueID;
     StartTime := startTime;
     EndTime := 0;
     Target_ := myapp;
     StartCustomData := Raw_zero;
     EndCustomData := Raw_zero;
     OtherCustomData := Raw_zero;
     Kind_ := sampleKind;
     Owner_ := mkOwner OwnerTypeUser "bob";
     LockUpdateTime := lockUpdateTime;
     Error_ := "";
     Log := "";
     RemoveDate := 0;
     CancelInfo := mkCancelInfo "alice" startTime startTime "stop" canceled canceled;
     Cancelable := true;
     Running := true;
     Allowed_ := mkAllowed "app.deploy" [mkCtx "team" "t1"];
     AllowedCancel := mkAllowed "app.deploy" [mkCtx "team" "t1"] |}.

Definition withEvents (evs : gmap Key eventData) (w : World) : World :=
  set_events evs w.

(** The clock of [emptyWorld] reads 1000 s.  In [liveWorld] the holder of
    [myapp] was refreshed 10 s ago, in [expiredWorld] 301 s ago; in
    [canceledWorld] the holder has acknowledged a cancellation; in
    [busyWorld] two events on [myapp] started within the last hour and the
    registry allows two an hour. *)
Definition liveWorld : World :=
  withEvents {[ KTarget myapp :=
                  heldEvent (mkEventID myapp "") "H-object-id"
                            (900 * 1000000000) (990 * 1000000000) false ]} emptyWorld.


Definition canceledEvent : Event :=
  mkEvent (heldEvent (mkEventID myapp "") "H-object-id"
                     (900 * 1000000000) (990 * 1000000000) true) "".

Definition canceledWorld : World :=
  withEvents {[ KTarget myapp := data canceledEvent ]} emptyWorld.

Definition twoAnHour : ThrottlingSpec :=
  mkSpec "app" "" 2 (3600 * 1000000000).

Definition busyWorld : World :=
  set_throttlingInfo {[ "app" := twoAnHour ]}
    (withEvents
       {[ KObjId "P-object-id" :=
            heldEvent (mkEventID zeroTarget "P-object-id") "P-object-id"
                      (100 * 1000000000) (100 * 1000000000) false;
          KObjId "Q-object-id" :=
            heldEvent (mkEventID zeroTarget "Q-object-id") "Q-object-id"
                      (200 * 1000000000) (200 * 1000000000) false ]}
       emptyWorld).

(** A filter with other raw clauses; the state a while later; and a
    callback for [Migrate] that writes a text into the error field of the
    event it is given. *)
Definition withRaw (raw : option (gmap string bval)) (f : Filter) : Filter :=
  {| F_Target := F_Target f;
     F_KindType := F_KindType f;
     F_KindName := F_KindName f;
     F_OwnerType := F_OwnerType f;
     F_OwnerName := F_OwnerName f;
     F_Since := F_Since f;
     F_Until := F_Until f;
     F_Running := F_Running f;
     F_IncludeRemoved := F_IncludeRemoved f;
     F_ErrorOnly := F_ErrorOnly f;
     F_Raw := raw;
     F_AllowedTargets := F_AllowedTargets f;
     F_Permissions := F_Permissions f;
     F_Limit := F_Limit f;
     F_Skip := F_Skip f;
     F_Sort := F_Sort f |}.

Definition advance (dt : Z) (w : World) : World :=
  mkWorld (events w) (clock w + dt) (dbConnErr w) (throttlingInfo w) (updaterSet w)
          (objectIdCounter w) (trace w).

Definition markMigrated (e : Event) : Event * option error :=
  (set_data (set_Error "migrated" (data e)) e, None).

Definition sampleWrap (format : string) (e : Event) (err : error) : error :=
  errorString format.

(** More inputs: a second application; the options of [sampleOpts] with
    the lock disabled; a registry that blocks every event; the event that
    [newEvt] creates from [sampleOpts] in [emptyWorld] and the state it
    leaves; the running event of [liveWorld] as its process holds it; a
    state in which that event has been found expired and archived and
    another event holds the target; and a form. *)
Definition otherapp : Target := mkTarget "app" "otherapp".

Definition unlockedOpts : Opts :=
  {| O_Target := myapp;
     O_Kind := Some (mkScheme "app.deploy");
     O_InternalKind := "";
     O_Owner := Some (mkToken false "" "alice");
     O_RawOwner := mkOwner "" "";
     O_CustomData := GoNil;
     O_DisableLock := true;
     O_Cancelable := true;
     O_Allowed := mkAllowed "app.deploy" [mkCtx "team" "t1"];
     O_AllowedCancel := mkAllowed "app.deploy" [mkCtx "team" "t1"] |}.

Definition blockingCollaborators : Collaborators :=
  {| bson_Marshal := sampleMarshal;
     bson_NewObjectId := sampleObjectId;
     checkIsBlocked := fun _ _ => Some (errorString "blocked by the registry");
     Query_Count := sampleCount;
     Query_All := sampleAll;
     fmt_T := fun _ => "T";
     fmt_sharp_v := fun _ => "v";
     fmt_d := fun _ => "d";
     fmt_q := fun s => s;
     Duration_String := fun _ => "5m1s";
     Time_Format_RFC3339 := fun _ => "t" |}.

Definition createdEvent : Event :=
  initialEvent sampleOpts sampleKind (mkOwner OwnerTypeUser "alice") Raw_zero
               "A-object-id" (clock emptyWorld).

Definition createdWorld : World :=
  {| events := {[ KTarget myapp := data createdEvent ]};
     clock := clock emptyWorld;
     dbConnErr := None;
     throttlingInfo := ∅;
     updaterSet := {[ myapp ]};
     objectIdCounter := 1;
     trace := [OpInsert (KTarget myapp)] |}.

Definition runningEvent : Event :=
  mkEvent (heldEvent (mkEventID myapp "") "H-object-id"
                     (900 * 1000000000) (990 * 1000000000) false) "".

Definition takenOverWorld : World :=
  withEvents
    {[ KTarget myapp :=
         heldEvent (mkEventID myapp "") "B-object-id"
                   (995 * 1000000000) (995 * 1000000000) false;
       KObjId "H-object-id" :=
         heldEvent (mkEventID zeroTarget "H-object-id") "H-object-id"
                   (600 * 1000000000) (699 * 1000000000) false ]}
    emptyWorld.

Definition twoAppsWorld : World :=
  withEvents
    {[ KTarget myapp :=
         heldEvent (mkEventID myapp "") "H-object-id"
                   (600 * 1000000000) (699 * 1000000000) false;
       KTarget otherapp :=
         heldEvent (mkEventID otherapp "") "O-object-id"
                   (990 * 1000000000) (990 * 1000000000) false ]}
    emptyWorld.

Definition sampleForm : gmap string (list string) :=
  {[ "name" := ["myapp"]; "tag" := ["a"; "b"] ]}.

Definition busyRows : list eventData :=
  [ heldEvent (mkEventID zeroTarget "P-object-id") "P-object-id"
              (100 * 1000000000) (100 * 1000000000) false;
    heldEvent (mkEventID zeroTarget "Q-object-id") "Q-object-id"
              (200 * 1000000000) (200 * 1000000000) false ].

(** The options of an internal event, with a raw owner that has a name and
    no type. *)
Definition internalOpts : Opts :=
  {| O_Target := myapp;
     O_Kind := None;
     O_InternalKind := "healer";
     O_Owner := None;
     O_RawOwner := mkOwner "" "tsuru";
     O_CustomData := GoNil;
     O_DisableLock := false;
     O_Cancelable := false;
     O_Allowed := mkAllowed "app.update" [];
     O_AllowedCancel := mkAllowed "" [] |}.

Definition internalEvent : Event :=
  initialEvent internalOpts (mkKind KindTypeInternal "healer")
               (mkOwner OwnerTypeInternal "") Raw_zero "A-object-id" (clock emptyWorld).

Definition internalWorld : World :=
  {| events := {[ KTarget myapp := data internalEvent ]};
     clock := clock emptyWorld;
     dbConnErr := None;
     throttlingInfo := ∅;
     updaterSet := {[ myapp ]};
     objectIdCounter := 1;
     trace := [OpInsert (KTarget myapp)] |}.






(** [w'] is [w] but for the trace, the updater's set, the document stored
    under [k] and the documents stored under an object id (or under the
    zero target, where an event without unique id is archived): the clock,
    the connection and the locks of the other targets are the same. *)
Definition others_kept (k : Key) (w w' : World) : Prop :=
  clock w' = clock w /\ dbConnErr w' = dbConnErr w
  /\ forall t', t' <> zeroTarget -> KTarget t' <> k ->
                events w' !! KTarget t' = events w !! KTarget t'.

(** * Properties *)

(** ** Target types *)

Lemma GetTargetType_handled (t : string) :
  t ∈ handledTargetTypes -> GetTargetType t = (t, None).
Proof.
  unfold handledTargetTypes. rewrite !elem_of_cons, elem_of_nil.
  intros Ht. repeat (destruct Ht as [-> | Ht]; [reflexivity |]). destruct Ht.
Qed.

Lemma GetTargetType_unhandled (t : string) :
  t ∉ handledTargetTypes -> GetTargetType t = ("", Some ErrInvalidTargetType).
Proof.
  unfold handledTargetTypes. rewrite !not_elem_of_cons. intros Ht.
  unfold GetTargetType.
  repeat match goal with
         | |- context [String.eqb t ?s] =>
             destruct (String.eqb_spec t s) as [-> | _]; [exfalso; tauto |]
         end.
  reflexivity.
Qed.

(** C4. [GetTargetType] accepts the eight tags of its [switch] and returns
    [ErrInvalidTargetType] for every other string, among them the seven
    declared target types [iaas], [role], [platform], [plan],
    [node-container], [install-host] and [event-block]. *)
Theorem GetTargetType_declared_types :
  Forall (fun t => GetTargetType t = (t, None)) (take 8 declaredTargetTypes)
  /\ Forall (fun t => GetTargetType t = ("", Some ErrInvalidTargetType))
            (drop 8 declaredTargetTypes)
  /\ drop 8 declaredTargetTypes
     = [ "iaas"; "role"; "platform"; "plan"; "node-container"; "install-host";
         "event-block" ]
  /\ (forall t, t ∈ handledTargetTypes -> GetTargetType t = (t, None))
  /\ (forall t, t ∉ handledTargetTypes ->
                GetTargetType t = ("", Some ErrInvalidTargetType)).
Proof.
  split; [| split; [| split; [| split]]].
  - repeat constructor.
  - repeat constructor.
  - reflexivity.
  - exact GetTargetType_handled.
  - exact GetTargetType_unhandled.
Qed.

(** ** Filters *)

(** C7. After [PruneUserValues] the fields [Raw], [AllowedTargets] and
    [Permissions] are nil and [Limit] lies in [1, 100]: a limit of 0 or
    below, or above 100, becomes [filterMaxLimit = 100], and a limit within
    the range is kept. *)
Theorem PruneUserValues_clears_and_clamps (f : Filter) :
  let f' := PruneUserValues f in
  F_Raw f' = None
  /\ F_AllowedTargets f' = None
  /\ F_Permissions f' = None
  /\ 1 <= F_Limit f' <= 100
  /\ (F_Limit f <= 0 -> F_Limit f' = filterMaxLimit)
  /\ (100 < F_Limit f -> F_Limit f' = 100)
  /\ (1 <= F_Limit f <= 100 -> F_Limit f' = F_Limit f).
Proof.
  unfold PruneUserValues, filterMaxLimit; simpl.
  destruct (Z.ltb_spec 100 (F_Limit f)), (Z.leb_spec (F_Limit f) 0); simpl;
    repeat split; lia.
Qed.

Lemma toQuery_AllowedTargets_overwrites (f : Filter) (ps : list Permission)
    (ats : list TargetFilter) :
  toQuery (withAccess (Some ps) (Some ats) f) = toQuery (withAccess None (Some ats) f).
Proof.
  unfold toQuery; simpl.
  destruct (length _ =? 0)%nat; [reflexivity |].
  rewrite insert_insert_eq. reflexivity.
Qed.

(** C2. For the filter of a caller who holds [app.deploy] on team [t1] and
    is allowed the targets of type [app], the compiled query keeps under
    [$or] the target clauses only: it is the query of the same filter
    without any permission, and whatever the permissions and the allowed
    targets, the second assignment of [$or] replaces the first. *)
Theorem toQuery_both_keeps_targets_only :
  toQuery bothFilter
  = (Some {[ "$or" := BArr [BM {[ "target.type" := BStr "app" ]}];
             "removedate" := BM {[ "$exists" := BBool false ]} ]}, None)
  /\ toQuery bothFilter = toQuery (withAccess None (Some [mkTargetFilter "app" None]) sampleFilter)
  /\ permOrBlock [deployOnT1]
     = [BM {[ "allowed.scheme" := BM {[ "$regex" := BStr "^app\.deploy" ]};
              "allowed.contexts" :=
                BM {[ "$in" := BArr [BD [("ctxtype", BStr "team"); ("value", BStr "t1")]] ]} ]}]
  /\ (forall f ps ats,
        toQuery (withAccess (Some ps) (Some ats) f) = toQuery (withAccess None (Some ats) f)).
Proof.
  split; [| split; [| split]].
  - vm_compute. reflexivity.
  - apply toQuery_AllowedTargets_overwrites.
  - vm_compute. reflexivity.
  - exact toQuery_AllowedTargets_overwrites.
Qed.

Section Properties.

Context `{Collaborators}.

(** Projections of the records built by the setters and by the store
    calls. *)
Ltac simp_rec :=
  cbn [events clock dbConnErr throttlingInfo updaterSet objectIdCounter trace
       record records set_events set_updaterSet set_objectIdCounter
       set_throttlingInfo updater_add updater_remove
       ID UniqueID StartTime EndTime Target_ StartCustomData EndCustomData
       OtherCustomData Kind_ Owner_ LockUpdateTime Error_ Log RemoveDate
       CancelInfo Cancelable Running Allowed_ AllowedCancel
       set_ID set_EndTime set_EndCustomData set_OtherCustomData set_Error
       set_Log set_Running data logBuffer set_data ID_Target ID_ObjId
       fst snd fmap option_fmap option_map] in *.

(** ** The store *)

Lemma key_of_objid (t : Target) (o : ObjectId) :
  o <> "" -> key_of (mkEventID t o) = KObjId o.
Proof. intros Ho. destruct o; [congruence | reflexivity]. Qed.

Lemma coll_Insert_dup (d x : eventData) (w : World) :
  events w !! key_of (ID d) = Some x ->
  coll_Insert d w = (Some mgoDuplicateKey, record (OpInsert (key_of (ID d))) w).
Proof. intros Hx. unfold coll_Insert. simpl. rewrite Hx. reflexivity. Qed.

Lemma coll_Insert_fresh (d : eventData) (w : World) :
  events w !! key_of (ID d) = None ->
  coll_Insert d w
  = (None, set_events (<[key_of (ID d) := d]> (events w))
                      (record (OpInsert (key_of (ID d))) w)).
Proof. intros Hx. unfold coll_Insert. simpl. rewrite Hx. reflexivity. Qed.

Lemma coll_FindId_found (k : Key) (x : eventData) (w : World) :
  events w !! k = Some x ->
  coll_FindId k w = (Some (set_ID (id_of_key k) x), record (OpFindId k) w).
Proof. intros Hx. unfold coll_FindId. simpl. rewrite Hx. reflexivity. Qed.

Lemma coll_RemoveId_frees (k : Key) (w : World) :
  events (coll_RemoveId k w).2 !! k = None.
Proof.
  unfold coll_RemoveId. simpl.
  destruct (events w !! k) eqn:Hk; simpl; [apply lookup_delete_eq | exact Hk].
Qed.

Lemma coll_RemoveId_other (k k' : Key) (w : World) :
  k <> k' -> events (coll_RemoveId k w).2 !! k' = events w !! k'.
Proof.
  intros Hne. unfold coll_RemoveId. simpl.
  destruct (events w !! k); simpl; [apply lookup_delete_ne; exact Hne | reflexivity].
Qed.

Lemma coll_Insert_ok (d : eventData) (w w' : World) :
  coll_Insert d w = (None, w') -> events w' !! key_of (ID d) = Some d.
Proof.
  unfold coll_Insert. simp_rec.
  destruct (events w !! key_of (ID d)); intros Heq; inversion Heq; subst.
  simp_rec. apply lookup_insert_eq.
Qed.

Lemma coll_UpdateId_ok (k : Key) (d : eventData) (w w' : World) :
  coll_UpdateId k d w = (None, w') -> events w' !! k = Some d.
Proof.
  unfold coll_UpdateId. simp_rec.
  destruct (events w !! k); intros Heq; inversion Heq; subst.
  simp_rec. apply lookup_insert_eq.
Qed.

(** ** Completion *)

Lemma set_Error_same (d : eventData) : set_Error (Error_ d) d = d.
Proof. destruct d; reflexivity. Qed.

Lemma done_filled (e : Event) (evtErr : option error) :
  match evtErr with
  | Some evtErr => set_Error (Error evtErr) (data e)
  | None => if CI_Canceled (CancelInfo (data e))
            then set_Error "canceled by user request" (data e) else data e
  end = set_Error (doneMessage e evtErr) (data e).
Proof.
  unfold doneMessage. destruct evtErr; [reflexivity |].
  destruct (CI_Canceled _); [reflexivity |]. symmetry. apply set_Error_same.
Qed.

(** [Done] on an event stored under an object id updates it in place. *)
Lemma done_in_place (e : Event) (evtErr : option error) (w : World) :
  dbConnErr w = None ->
  ID_ObjId (ID (data e)) <> "" ->
  let k := KObjId (ID_ObjId (ID (data e))) in
  let d := closedData e evtErr (clock w) (rereadOther e w) in
  done e evtErr GoNil false w
  = (let '(err, w') :=
       coll_UpdateId k d (record (OpFindId k) (updater_remove (Target_ (data e)) w)) in
     (err, set_data d e, w')).
Proof.
  intros Hconn Hobj k d.
  assert (Hk : key_of (ID (data e)) = k).
  { destruct (ID (data e)) as [t o]. apply key_of_objid. exact Hobj. }
  unfold done, makeBSONRaw.
  change (dbConnErr (updater_remove (Target_ (data e)) w)) with (dbConnErr w).
  rewrite Hconn. cbv beta iota zeta. rewrite done_filled.
  unfold coll_FindId. cbv beta iota zeta. simp_rec. rewrite Hk.
  subst d. unfold closedData, rereadOther. rewrite Hk.
  destruct (events w !! k) as [x |] eqn:Hx; simp_rec.
  - rewrite Hk. destruct (ID_ObjId (ID (data e))); [congruence |]. reflexivity.
  - rewrite Hk. destruct (ID_ObjId (ID (data e))); [congruence |]. reflexivity.
Qed.

(** [Done] on an event stored under its target inserts it under its unique
    id, then removes the document stored under the target. *)
Lemma done_locked (e : Event) (evtErr : option error) (w : World) :
  dbConnErr w = None ->
  ID_ObjId (ID (data e)) = "" ->
  let k := KTarget (ID_Target (ID (data e))) in
  let d := set_ID (mkEventID zeroTarget (UniqueID (data e)))
                  (closedData e evtErr (clock w) (rereadOther e w)) in
  done e evtErr GoNil false w
  = (let '(err, w') :=
       coll_Insert d (record (OpFindId k) (updater_remove (Target_ (data e)) w)) in
     let '(_, w'') := coll_RemoveId k w' in
     (err, set_data d e, w'')).
Proof.
  intros Hconn Hobj k d.
  assert (Hk : key_of (ID (data e)) = k).
  { destruct (ID (data e)) as [t o]. simpl in Hobj. subst o. reflexivity. }
  unfold done, makeBSONRaw.
  change (dbConnErr (updater_remove (Target_ (data e)) w)) with (dbConnErr w).
  rewrite Hconn. cbv beta iota zeta. rewrite done_filled.
  unfold coll_FindId. cbv beta iota zeta. simp_rec. rewrite Hk.
  subst d. unfold closedData, rereadOther. rewrite Hk.
  destruct (events w !! k) as [x |] eqn:Hx; simp_rec.
  - rewrite Hk, Hobj. reflexivity.
  - rewrite Hk, Hobj. reflexivity.
Qed.

(** C8. When [Done] is called on an event whose [cancelInfo.Canceled] is
    true, the error field is [canceled by user request] if the caller's
    error is nil and the message of the caller's error otherwise;
    [cancelInfo] is kept; when [Done] returns no error the event so filled
    is what the store holds under the event's id.  [Done] does return no
    error, and the document stored under the event's id has that error
    field and the [cancelInfo], when the event is stored under its target
    and no document has its unique id yet, and when the event is stored
    under an object id and that document is there. *)
Theorem Done_canceled_error (e : Event) (evtErr : option error) (w : World) :
  CI_Canceled (CancelInfo (data e)) = true ->
  dbConnErr w = None ->
  UniqueID (data e) <> "" ->
  let msg := match evtErr with
             | Some err => Error err
             | None => "canceled by user request"
             end in
  Error_ (data (Done e evtErr w).1.2) = msg
  /\ CancelInfo (data (Done e evtErr w).1.2) = CancelInfo (data e)
  /\ Running (data (Done e evtErr w).1.2) = false
  /\ ((Done e evtErr w).1.1 = None ->
      events (Done e evtErr w).2 !! key_of (ID (data (Done e evtErr w).1.2))
      = Some (data (Done e evtErr w).1.2))
  /\ ((if String.eqb (ID_ObjId (ID (data e))) ""
       then events w !! KObjId (UniqueID (data e)) = None
       else is_Some (events w !! KObjId (ID_ObjId (ID (data e))))) ->
      (Done e evtErr w).1.1 = None
      /\ Error_ <$> events (Done e evtErr w).2
                      !! key_of (ID (data (Done e evtErr w).1.2)) = Some msg
      /\ CancelInfo <$> events (Done e evtErr w).2
                          !! key_of (ID (data (Done e evtErr w).1.2))
         = Some (CancelInfo (data e))).
Proof.
  intros Hcanceled Hconn Huid msg.
  assert (Hmsg : doneMessage e evtErr = msg).
  { unfold doneMessage. subst msg. destruct evtErr; [reflexivity |].
    rewrite Hcanceled. reflexivity. }
  unfold Done.
  destruct (decide (ID_ObjId (ID (data e)) = "")) as [Hobj | Hobj].
  - rewrite (done_locked e evtErr w Hconn Hobj). cbv zeta.
    set (k := KTarget (ID_Target (ID (data e)))).
    set (d := set_ID _ _).
    set (w0 := record _ _).
    pose proof (coll_Insert_fresh d w0) as Hfresh.
    destruct (coll_Insert d w0) as [err w'] eqn:Hins.
    pose proof (coll_RemoveId_other k (key_of (ID d)) w') as Hrem.
    destruct (coll_RemoveId k w') as [rerr w''] eqn:Hrm.
    assert (Hkd : key_of (ID d) = KObjId (UniqueID (data e))).
    { subst d. simp_rec. apply key_of_objid. exact Huid. }
    assert (Hne : k <> key_of (ID d)) by (rewrite Hkd; subst k; discriminate).
    assert (He : Error_ d = msg) by (subst d; unfold closedData; simp_rec; exact Hmsg).
    assert (Hc : CancelInfo d = CancelInfo (data e))
      by (subst d; unfold closedData; simp_rec; reflexivity).
    cbn [fst snd] in *. cbn [data set_data].
    assert (Hstored : err = None -> events w'' !! key_of (ID d) = Some d).
    { intros ->. rewrite (Hrem Hne). eapply coll_Insert_ok. exact Hins. }
    split; [exact He |]. split; [exact Hc |].
    split; [subst d; unfold closedData; simp_rec; reflexivity |].
    split; [exact Hstored |].
    rewrite Hobj. cbn [String.eqb]. intros Hfree.
    assert (Herr : err = None).
    { rewrite Hkd in Hfresh. subst w0. simp_rec. specialize (Hfresh Hfree).
      congruence. }
    rewrite (Hstored Herr). cbn [fmap option_fmap option_map]. rewrite He, Hc.
    repeat split; assumption || reflexivity.
  - rewrite (done_in_place e evtErr w Hconn Hobj). cbv zeta.
    set (k := KObjId (ID_ObjId (ID (data e)))).
    set (d := closedData _ _ _ _).
    set (w0 := record _ _).
    assert (Hev : events w0 = events w) by reflexivity.
    destruct (coll_UpdateId k d w0) as [err w'] eqn:Hupd.
    assert (Hkd : key_of (ID d) = k).
    { subst d k. unfold closedData. simp_rec.
      destruct (ID (data e)) as [t o]. apply key_of_objid. exact Hobj. }
    assert (He : Error_ d = msg) by (subst d; unfold closedData; simp_rec; exact Hmsg).
    assert (Hc : CancelInfo d = CancelInfo (data e))
      by (subst d; unfold closedData; simp_rec; reflexivity).
    cbn [fst snd]. cbn [data set_data].
    assert (Hstored : err = None -> events w' !! key_of (ID d) = Some d).
    { intros ->. rewrite Hkd. eapply coll_UpdateId_ok. exact Hupd. }
    split; [exact He |]. split; [exact Hc |].
    split; [subst d; unfold closedData; simp_rec; reflexivity |].
    split; [exact Hstored |].
    destruct (String.eqb_spec (ID_ObjId (ID (data e))) "") as [| _]; [contradiction |].
    intros [x Hx].
    assert (Herr : err = None).
    { unfold coll_UpdateId in Hupd. simp_rec. rewrite Hev in Hupd. fold k in Hx.
      rewrite Hx in Hupd. congruence. }
    rewrite (Hstored Herr). cbn [fmap option_fmap option_map]. rewrite He, Hc.
    repeat split; assumption || reflexivity.
Qed.

(** ** Throttling *)

Lemma checkThrottling_state (t : Target) (k : Kind) (w : World) :
  let w1 := (checkThrottling t k w).2 in
  events w1 = events w /\ clock w1 = clock w /\ dbConnErr w1 = dbConnErr w
  /\ objectIdCounter w1 = objectIdCounter w /\ updaterSet w1 = updaterSet w.
Proof.
  unfold checkThrottling.
  destruct (getThrottling t k w) as [tSpec |]; [| simpl; tauto].
  destruct (_ && _); [| simpl; tauto].
  destruct (Query_Count _ _) as [c [err |]]; [simpl; tauto |].
  destruct (_ <=? _); simpl; tauto.
Qed.

Lemma throttlingQuery_lookup (t : Target) (tSpec : ThrottlingSpec) (now : Z) :
  let query := throttlingQuery t tSpec now in
  query !! "target.type" = Some (BStr (Target_Type t))
  /\ query !! "target.value" = Some (BStr (Target_Value t))
  /\ query !! "starttime" = Some (BM {[ "$gt" := BTime (now - Spec_Time tSpec) ]})
  /\ query !! "kind.name"
     = (if nonEmpty (Spec_KindName tSpec) then Some (BStr (Spec_KindName tSpec)) else None).
Proof.
  unfold throttlingQuery, setIf.
  destruct (nonEmpty (Spec_KindName tSpec)); repeat split; by simplify_map_eq.
Qed.

(** C6. The lookup takes the spec under [<target-type>_<kindName>] and,
    failing that, the spec under [<target-type>]; without a spec, or with a
    spec whose [Max] or [Time] is not positive, nothing is counted and
    nothing refused; with an active spec the store is asked for the count of
    the query on the target, on the spec's kind name when it has one, and
    on [startTime > now - time], and a count of [Max] or more makes [newEvt]
    fail with [ErrThrottled] carrying the spec and the target. *)
Theorem newEvt_throttling (fuel : nat) (opts : Opts) (k : Kind) (w : World) :
  checkOpts opts = None ->
  optsKind opts = (k, None) ->
  dbConnErr w = None ->
  let t := O_Target opts in
  getThrottling t k w
  = match throttlingInfo w !! (Target_Type t +:+ "_" +:+ Kind_Name k) with
    | Some s => Some s
    | None => throttlingInfo w !! Target_Type t
    end
  /\ (getThrottling t k w = None -> checkThrottling t k w = (None, w))
  /\ forall tSpec, getThrottling t k w = Some tSpec ->
     let query := throttlingQuery t tSpec (clock w) in
     (Spec_Max tSpec <= 0 \/ Spec_Time tSpec <= 0 -> checkThrottling t k w = (None, w))
     /\ (0 < Spec_Max tSpec -> 0 < Spec_Time tSpec ->
         query !! "target.type" = Some (BStr (Target_Type t))
         /\ query !! "target.value" = Some (BStr (Target_Value t))
         /\ query !! "starttime"
            = Some (BM {[ "$gt" := BTime (clock w - Spec_Time tSpec) ]})
         /\ query !! "kind.name"
            = (if nonEmpty (Spec_KindName tSpec)
               then Some (BStr (Spec_KindName tSpec)) else None)
         /\ forall c, Query_Count query (events w) = (c, None) ->
            (Spec_Max tSpec <= c ->
             newEvt fuel (Some opts) w
             = Some (None, Some (ErrThrottled tSpec t), record (OpCount query) w))
            /\ (c < Spec_Max tSpec ->
                checkThrottling t k w = (None, record (OpCount query) w))).
Proof.
  intros Hopts Hkind Hconn t. split; [| split].
  - unfold getThrottling. destruct (throttlingInfo w !! (_ +:+ _)); [reflexivity |].
    destruct (throttlingInfo w !! _); reflexivity.
  - intros Hnone. unfold checkThrottling. rewrite Hnone. reflexivity.
  - intros tSpec Hspec query. split.
    + intros Hinactive. unfold checkThrottling. rewrite Hspec.
      destruct (Z.ltb_spec 0 (Spec_Max tSpec)), (Z.ltb_spec 0 (Spec_Time tSpec));
        simpl; try reflexivity; lia.
    + intros Hmax Htime.
      destruct (throttlingQuery_lookup t tSpec (clock w)) as (Hty & Hva & Hst & Hkn).
      repeat (split; [assumption |]).
      intros c Hcount.
      assert (Hchk : checkThrottling t k w
                     = (if Spec_Max tSpec <=? c then Some (ErrThrottled tSpec t) else None,
                        record (OpCount query) w)).
      { unfold checkThrottling. rewrite Hspec.
        destruct (Z.ltb_spec 0 (Spec_Max tSpec)); [| lia].
        destruct (Z.ltb_spec 0 (Spec_Time tSpec)); [| lia].
        simpl. fold query. simp_rec. rewrite Hcount.
        destruct (Spec_Max tSpec <=? c); reflexivity. }
      split.
      * intros Hge. unfold newEvt. rewrite Hopts, Hkind, Hconn. fold t. rewrite Hchk.
        destruct (Z.leb_spec (Spec_Max tSpec) c); [reflexivity | lia].
      * intros Hlt. rewrite Hchk.
        destruct (Z.leb_spec (Spec_Max tSpec) c); [lia | reflexivity].
Qed.

(** ** The lock *)

Lemma record_records (op : StoreOp) (a : list StoreOp) (w : World) :
  record op (records a w) = records (a ++ [op]) w.
Proof. unfold records. simp_rec. rewrite app_assoc. reflexivity. Qed.

Lemma record_one (op : StoreOp) (w : World) : record op w = records [op] w.
Proof. reflexivity. Qed.

Lemma newEvt_reaches_insert (fuel : nat) (opts : Opts) (k : Kind) (raw : Raw) (w : World) :
  checkOpts opts = None ->
  optsKind opts = (k, None) ->
  dbConnErr w = None ->
  (checkThrottling (O_Target opts) k w).1 = None ->
  makeBSONRaw (O_CustomData opts) = (raw, None) ->
  newEvt fuel (Some opts) w
  = insertLoop fuel opts
      (initialEvent opts k (optsOwner opts) raw (bson_NewObjectId (objectIdCounter w))
                    (clock w))
      0 1 None
      (set_objectIdCounter (S (objectIdCounter w)) (checkThrottling (O_Target opts) k w).2).
Proof.
  intros Hopts Hkind Hconn Hthr Hraw.
  unfold newEvt. rewrite Hopts, Hkind, Hconn.
  destruct (checkThrottling_state (O_Target opts) k w) as (_ & Hclock & _ & Hctr & _).
  destruct (checkThrottling (O_Target opts) k w) as [err w1].
  simpl in Hthr, Hclock, Hctr. subst err. rewrite Hraw, Hclock, Hctr. reflexivity.
Qed.

Lemma checkIsExpired_live (id : eventID) (x : eventData) (w : World) :
  events w !! key_of id = Some x ->
  clock w <= LockUpdateTime x + lockExpireTimeout ->
  checkIsExpired id w = (false, record (OpFindId (key_of id)) w).
Proof.
  intros Hx Hlive. unfold checkIsExpired.
  rewrite (coll_FindId_found _ x w Hx). simp_rec.
  destruct (Z.ltb_spec (LockUpdateTime x + lockExpireTimeout) (clock w)); [lia | reflexivity].
Qed.

Lemma checkIsExpired_expired (id : eventID) (x : eventData) (w : World) :
  events w !! key_of id = Some x ->
  LockUpdateTime x + lockExpireTimeout < clock w ->
  checkIsExpired id w
  = (true,
     (Done (mkEvent (set_ID (id_of_key (key_of id)) x) "")
           (Some (errorString ("event expired, no update for "
                               +:+ Duration_String (clock w - LockUpdateTime x))))
           (record (OpFindId (key_of id)) w)).2).
Proof.
  intros Hx Hexp. unfold checkIsExpired.
  rewrite (coll_FindId_found _ x w Hx). simp_rec.
  destruct (Z.ltb_spec (LockUpdateTime x + lockExpireTimeout) (clock w)); [| lia].
  destruct (Done _ _ _) as [[err e'] w']. reflexivity.
Qed.

(** A round of the loop at [i = maxRetries] that meets a duplicate: the
    stored event is read and reported, and the loop ends. *)
Lemma insertLoop_last_round_dup (fuel : nat) (opts : Opts) (evt : Event) (mr : nat)
    (err : option error) (w : World) (x : eventData) :
  events w !! key_of (ID (data evt)) = Some x ->
  let kt := key_of (ID (data evt)) in
  insertLoop (S (S fuel)) opts evt mr mr err w
  = Some (None, Some (ErrEventLocked (mkEvent (set_ID (id_of_key kt) x) "")),
          record (OpFindId kt) (record (OpInsert kt) w)).
Proof.
  intros Hx kt. subst kt. cbn [insertLoop].
  destruct (Nat.ltb_spec mr (mr + 1)); [| lia].
  rewrite (coll_Insert_dup _ x w Hx). cbn [mgo_IsDup].
  rewrite Nat.leb_refl. cbn [orb]. cbv iota beta.
  rewrite (coll_FindId_found _ x (record (OpInsert _) w) Hx).
  destruct (Nat.ltb_spec (mr + 1) (mr + 1)); [lia | reflexivity].
Qed.

(** The first round, on a duplicate whose holder is live. *)
Lemma insertLoop_first_round_live (fuel : nat) (opts : Opts) (evt : Event)
    (err : option error) (w : World) (x : eventData) :
  events w !! key_of (ID (data evt)) = Some x ->
  clock w <= LockUpdateTime x + lockExpireTimeout ->
  let kt := key_of (ID (data evt)) in
  insertLoop (S fuel) opts evt 0 1 err w
  = insertLoop fuel opts evt 1 1
      (Some (ErrEventLocked (mkEvent (set_ID (id_of_key kt) x) "")))
      (record (OpFindId kt) (record (OpFindId kt) (record (OpInsert kt) w))).
Proof.
  intros Hx Hlive kt. subst kt. cbn [insertLoop].
  change (0 <? 1 + 1)%nat with true. cbv iota.
  rewrite (coll_Insert_dup _ x w Hx). cbn [mgo_IsDup].
  change (1 <=? 0)%nat with false. cbv iota. cbn [orb].
  rewrite (checkIsExpired_live (ID (data evt)) x (record (OpInsert _) w) Hx Hlive).
  cbn [negb]. cbv iota.
  rewrite (coll_FindId_found _ x (record (OpFindId _) (record (OpInsert _) w)) Hx).
  reflexivity.
Qed.

(** The first round, on a duplicate whose holder has expired. *)
Lemma insertLoop_first_round_expired (fuel : nat) (opts : Opts) (evt : Event)
    (err : option error) (w : World) (x : eventData) :
  events w !! key_of (ID (data evt)) = Some x ->
  LockUpdateTime x + lockExpireTimeout < clock w ->
  let kt := key_of (ID (data evt)) in
  insertLoop (S fuel) opts evt 0 1 err w
  = insertLoop fuel opts evt 1 1 (Some mgoDuplicateKey)
      (Done (mkEvent (set_ID (id_of_key kt) x) "")
            (Some (errorString ("event expired, no update for "
                                +:+ Duration_String (clock w - LockUpdateTime x))))
            (record (OpFindId kt) (record (OpInsert kt) w))).2.
Proof.
  intros Hx Hexp kt. subst kt. cbn [insertLoop].
  change (0 <? 1 + 1)%nat with true. cbv iota.
  rewrite (coll_Insert_dup _ x w Hx). cbn [mgo_IsDup].
  change (1 <=? 0)%nat with false. cbv iota. cbn [orb].
  rewrite (checkIsExpired_expired (ID (data evt)) x (record (OpInsert _) w) Hx Hexp).
  reflexivity.
Qed.

(** A round of the loop that finds the slot free. *)
Lemma insertLoop_round_free (fuel : nat) (opts : Opts) (evt : Event) (i mr : nat)
    (err : option error) (w : World) :
  (i <= mr)%nat ->
  events w !! key_of (ID (data evt)) = None ->
  let kt := key_of (ID (data evt)) in
  let wi := set_events (<[kt := data evt]> (events w)) (record (OpInsert kt) w) in
  insertLoop (S fuel) opts evt i mr err w
  = match checkIsBlocked evt wi with
    | None => Some (Some evt, None,
                    if negb (O_DisableLock opts) then updater_add (O_Target opts) wi
                    else wi)
    | Some err => Some (None, Some err, (Done evt (Some err) wi).2)
    end.
Proof.
  intros Hi Hfree kt wi. cbn [insertLoop].
  destruct (Nat.ltb_spec i (mr + 1)); [| lia].
  rewrite (coll_Insert_fresh _ w Hfree). fold kt. fold wi.
  destruct (checkIsBlocked evt wi) as [berr |]; [| reflexivity].
  destruct (Done evt (Some berr) wi) as [[derr e'] w']. reflexivity.
Qed.

(** With three units of fuel the loop returns: a duplicate is followed by
    a read that finds the stored event, so [maxRetries] stays at 1 as long
    as no other writer comes in between. *)
Lemma insertLoop_last_round_returns (fuel : nat) (opts : Opts) (evt : Event) (mr : nat)
    (err : option error) (w : World) :
  is_Some (insertLoop (S (S fuel)) opts evt mr mr err w).
Proof.
  destruct (events w !! key_of (ID (data evt))) as [x |] eqn:Hx.
  - rewrite (insertLoop_last_round_dup fuel opts evt mr err w x Hx). eauto.
  - rewrite (insertLoop_round_free (S fuel) opts evt mr mr err w (Nat.le_refl mr) Hx).
    destruct (checkIsBlocked _ _); eauto.
Qed.

Lemma insertLoop_returns (fuel : nat) (opts : Opts) (evt : Event)
    (err : option error) (w : World) :
  (3 <= fuel)%nat -> is_Some (insertLoop fuel opts evt 0 1 err w).
Proof.
  intros Hfuel. destruct fuel as [| [| [| fuel]]]; try lia.
  destruct (events w !! key_of (ID (data evt))) as [x |] eqn:Hx.
  - destruct (Z_lt_le_dec (LockUpdateTime x + lockExpireTimeout) (clock w)) as [Hexp | Hlive].
    + rewrite (insertLoop_first_round_expired _ opts evt err w x Hx Hexp).
      apply insertLoop_last_round_returns.
    + rewrite (insertLoop_first_round_live _ opts evt err w x Hx Hlive).
      apply insertLoop_last_round_returns.
  - rewrite (insertLoop_round_free _ opts evt 0 1 err w (Nat.le_0_l 1) Hx).
    destruct (checkIsBlocked _ _); eauto.
Qed.

(** [newEvt] returns on every input once the loop has its three units. *)
Lemma newEvt_returns (fuel : nat) (opts : option Opts) (w : World) :
  (3 <= fuel)%nat -> is_Some (newEvt fuel opts w).
Proof.
  intros Hfuel. unfold newEvt.
  destruct opts as [opts |]; [| eauto].
  destruct (checkOpts opts); [eauto |].
  destruct (optsKind opts) as [k [kerr |]]; [eauto |].
  destruct (dbConnErr w); [eauto |].
  destruct (checkThrottling _ _ _) as [[terr |] w1]; [eauto |].
  destruct (makeBSONRaw _) as [raw [merr |]]; [eauto |].
  apply insertLoop_returns. exact Hfuel.
Qed.

(** [New] and [NewInternal] add their own checks and hand over to
    [newEvt]. *)
Lemma New_calls_newEvt (fuel : nat) (opts : Opts) (scheme : PermissionScheme)
    (token : Token) (w : World) :
  O_Owner opts = Some token -> O_Kind opts = Some scheme ->
  New fuel (Some opts) w = newEvt fuel (Some opts) w.
Proof. intros Ho Hk. unfold New. rewrite Ho, Hk. reflexivity. Qed.

Lemma NewInternal_calls_newEvt (fuel : nat) (opts : Opts) (w : World) :
  O_Owner opts = None -> O_Kind opts = None -> O_InternalKind opts <> "" ->
  NewInternal fuel (Some opts) w = newEvt fuel (Some opts) w.
Proof.
  intros Ho Hk Hi. unfold NewInternal. rewrite Ho, Hk.
  destruct (String.eqb_spec (O_InternalKind opts) ""); [congruence | reflexivity].
Qed.

Lemma coll_Insert_state (d : eventData) (w : World) :
  let w' := (coll_Insert d w).2 in
  trace w' = trace w ++ [OpInsert (key_of (ID d))]
  /\ clock w' = clock w /\ dbConnErr w' = dbConnErr w.
Proof.
  unfold coll_Insert. simp_rec.
  destruct (events w !! key_of (ID d)); simp_rec; tauto.
Qed.

Lemma coll_RemoveId_state (k : Key) (w : World) :
  let w' := (coll_RemoveId k w).2 in
  trace w' = trace w ++ [OpRemoveId k]
  /\ clock w' = clock w /\ dbConnErr w' = dbConnErr w.
Proof.
  unfold coll_RemoveId. simp_rec.
  destruct (events w !! k); simp_rec; tauto.
Qed.

(** [Done] on the holder of a target: whatever the insert under the unique
    id does, the target's slot is free afterwards. *)
Lemma Done_locked_result (e : Event) (evtErr : option error) (w : World) (t : Target) :
  dbConnErr w = None ->
  ID (data e) = mkEventID t "" ->
  let r := Done e evtErr w in
  let uid := UniqueID (data e) in
  Error_ (data r.1.2) = doneMessage e evtErr
  /\ Running (data r.1.2) = false
  /\ EndTime (data r.1.2) = clock w
  /\ ID (data r.1.2) = mkEventID zeroTarget uid
  /\ events r.2 !! KTarget t = None
  /\ (uid <> "" -> events w !! KObjId uid = None ->
      r.1.1 = None /\ events r.2 !! KObjId uid = Some (data r.1.2))
  /\ trace r.2
     = trace w ++ [OpFindId (KTarget t); OpInsert (key_of (mkEventID zeroTarget uid));
                   OpRemoveId (KTarget t)].
Proof.
  intros Hconn Hid r uid. subst r. unfold Done.
  assert (Hobj : ID_ObjId (ID (data e)) = "") by (rewrite Hid; reflexivity).
  rewrite (done_locked e evtErr w Hconn Hobj). cbv zeta.
  rewrite Hid. cbn [ID_Target]. fold uid.
  set (d := set_ID _ _).
  set (w0 := record _ _).
  assert (Hkd : key_of (ID d) = key_of (mkEventID zeroTarget uid)) by reflexivity.
  pose proof (coll_Insert_state d w0) as (Htr1 & _ & _).
  pose proof (coll_Insert_ok d w0) as Hok.
  pose proof (coll_Insert_fresh d w0) as Hfresh.
  destruct (coll_Insert d w0) as [err w'].
  pose proof (coll_RemoveId_state (KTarget t) w') as (Htr2 & _ & _).
  pose proof (coll_RemoveId_frees (KTarget t) w') as Hfree.
  pose proof (coll_RemoveId_other (KTarget t) (KObjId uid) w') as Hother.
  destruct (coll_RemoveId (KTarget t) w') as [rerr w''].
  cbn [fst snd] in *. cbn [data set_data].
  split; [| split; [| split; [| split; [| split; [| split]]]]];
    try (subst d; unfold closedData; simp_rec; reflexivity).
  - exact Hfree.
  - intros Huid Hnone.
    rewrite Hkd, (key_of_objid _ uid Huid) in Hfresh, Hok.
    subst w0. simp_rec. specialize (Hfresh Hnone).
    inversion Hfresh; subst. split; [reflexivity |].
    rewrite Hother by discriminate. apply Hok. reflexivity.
  - rewrite Htr2, Htr1. subst w0. simp_rec. rewrite Hkd, <- !app_assoc. reflexivity.
Qed.

(** ** Creation among the other clients of the store *)

Lemma turn_quiet (w : World) : turn quiet w = w.
Proof. destruct w; reflexivity. Qed.

(** Without other clients the loop is [insertLoop]. *)
Lemma insertLoopAmong_quiet (fuel : nat) (opts : Opts) (evt : Event) (i mr : nat)
    (err : option error) (w : World) :
  insertLoopAmong quiet fuel opts evt i mr err w = insertLoop fuel opts evt i mr err w.
Proof.
  revert i mr err w. induction fuel as [| fuel IH]; intros i mr err w; [reflexivity |].
  cbn [insertLoopAmong insertLoop]. rewrite turn_quiet.
  destruct (i <? mr + 1)%nat; [| reflexivity].
  destruct (coll_Insert (data evt) w) as [[insErr |] w1]; [| reflexivity].
  destruct (mgo_IsDup insErr); [| reflexivity].
  rewrite turn_quiet.
  destruct (if (mr <=? i)%nat then (false, w1) else checkIsExpired (ID (data evt)) w1)
    as [expired w2].
  destruct ((mr <=? i)%nat || negb expired); [| apply IH].
  rewrite turn_quiet.
  destruct (coll_FindId (key_of (ID (data evt))) w2) as [[x |] w3]; apply IH.
Qed.

Lemma newEvtAmong_quiet (fuel : nat) (opts : option Opts) (w : World) :
  newEvtAmong quiet fuel opts w = newEvt fuel opts w.
Proof.
  unfold newEvtAmong, newEvt.
  destruct opts as [opts |]; [| reflexivity].
  destruct (checkOpts opts); [reflexivity |].
  destruct (optsKind opts) as [k [err |]]; [reflexivity |].
  destruct (dbConnErr w); [reflexivity |].
  destruct (checkThrottling (O_Target opts) k w) as [[err |] w1]; [reflexivity |].
  destruct (makeBSONRaw (O_CustomData opts)) as [raw [err |]]; [reflexivity |].
  apply insertLoopAmong_quiet.
Qed.










(** ** Custom data *)

(** C3. The marshal gate: the nil interface and a nil pointer give the
    empty [bson.Raw] and no error; a map or struct (or a pointer to one)
    gives a raw document, kind 3, and an array or slice (or a pointer to
    one) a raw array, kind 4, holding the bytes of [bson.Marshal] when that
    succeeds with some bytes; every other shape, scalars among them, fails
    with the error [cannot use type ... as event custom data]. *)
Theorem makeBSONRaw_gate (in_ : GoValue) :
  (isNilInput in_ = true -> makeBSONRaw in_ = (Raw_zero, None))
  /\ (isNilInput in_ = false -> documentLike (pointee in_) = true ->
      forall data, bson_Marshal in_ = (data, None) -> data <> [] ->
                   makeBSONRaw in_ = (mkRaw 3 data, None))
  /\ (isNilInput in_ = false -> arrayLike (pointee in_) = true ->
      forall data, bson_Marshal in_ = (data, None) -> data <> [] ->
                   makeBSONRaw in_ = (mkRaw 4 data, None))
  /\ (isNilInput in_ = false ->
      documentLike (pointee in_) = false -> arrayLike (pointee in_) = false ->
      makeBSONRaw in_
      = (Raw_zero,
         Some (errorString ("cannot use type " +:+ fmt_T in_ +:+ " as event custom data")))).
Proof.
  repeat split.
  - destruct in_ as [| [e |] | | | | | | | | | |]; simpl; try discriminate; reflexivity.
  - intros Hnil Hdoc data Hm Hdata.
    destruct in_ as [| [e |] | | | | | | | | | |]; try discriminate;
      try (destruct e; try discriminate);
      unfold makeBSONRaw; simpl; rewrite Hm;
      destruct data; try congruence; reflexivity.
  - intros Hnil Harr data Hm Hdata.
    destruct in_ as [| [e |] | | | | | | | | | |]; try discriminate;
      try (destruct e; try discriminate);
      unfold makeBSONRaw; simpl; rewrite Hm;
      destruct data; try congruence; reflexivity.
  - intros Hnil Hdoc Harr.
    destruct in_ as [| [e |] | | | | | | | | | |]; try discriminate;
      try (destruct e; try discriminate); reflexivity.
Qed.

(** ** Listing *)

(** C5. For a filter whose [AllowedTargets] is non-nil and empty, [List]
    returns no event and a nil error, and does not call the store. *)
Theorem List_empty_AllowedTargets (f : Filter) (w : World) :
  F_AllowedTargets f = Some [] ->
  List (Some f) w = ([], None, w).
Proof.
  intros Hats. unfold List, toQuery. rewrite Hats. reflexivity.
Qed.

End Properties.

(** C3, as the claim has it for scalars: an integer is refused, it does not
    marshal to the empty value. *)
Lemma makeBSONRaw_scalar_refused :
  @makeBSONRaw sampleCollaborators (GoInt 42) <> (Raw_zero, None).
Proof. vm_compute. discriminate. Qed.

Lemma List_empty_AllowedTargets_witness :
  @List sampleCollaborators (Some (withAccess None (Some []) sampleFilter)) emptyWorld
  = ([], None, emptyWorld).
Proof.
  apply (@List_empty_AllowedTargets sampleCollaborators
           (withAccess None (Some []) sampleFilter) emptyWorld).
  reflexivity.
Defined.

Lemma Done_canceled_error_witness :
  Error_ <$> events (@Done sampleCollaborators canceledEvent None canceledWorld).2
               !! KObjId "H-object-id"
  = Some "canceled by user request"
  /\ Error_ <$> events (@Done sampleCollaborators canceledEvent
                             (Some (errorString "deploy failed")) canceledWorld).2
                  !! KObjId "H-object-id"
     = Some "deploy failed".
Proof.
  split.
  - destruct (@Done_canceled_error sampleCollaborators canceledEvent None canceledWorld)
      as (_ & _ & _ & _ & Hstored).
    + reflexivity.
    + reflexivity.
    + discriminate.
    + apply Hstored. vm_compute. reflexivity.
  - destruct (@Done_canceled_error sampleCollaborators canceledEvent
                (Some (errorString "deploy failed")) canceledWorld)
      as (_ & _ & _ & _ & Hstored).
    + reflexivity.
    + reflexivity.
    + discriminate.
    + apply Hstored. vm_compute. reflexivity.
Defined.

Lemma newEvt_throttling_witness :
  @newEvt sampleCollaborators 3 (Some sampleOpts) busyWorld
  = Some (None, Some (ErrThrottled twoAnHour myapp),
          record (OpCount (throttlingQuery myapp twoAnHour (clock busyWorld))) busyWorld).
Proof.
  destruct (@newEvt_throttling sampleCollaborators 3 sampleOpts sampleKind busyWorld)
    as (_ & _ & Hspec).
  - reflexivity.
  - reflexivity.
  - reflexivity.
  - destruct (Hspec twoAnHour) as (_ & Hactive).
    + vm_compute. reflexivity.
    + destruct Hactive as (_ & _ & _ & _ & Hcount).
      * reflexivity.
      * reflexivity.
      * destruct (Hcount 2) as (Hrefused & _).
        -- vm_compute. reflexivity.
        -- apply Hrefused. discriminate.
Defined.



(** * Further properties *)

(** ** Event ids *)

Lemma key_of_read_back (id : eventID) :
  key_of (id_of_key (key_of id)) = key_of id.
Proof.
  destruct id as [t o]. destruct o; reflexivity.
Qed.

(** X1. The [_id] written for an id that was read back from the store is
    the [_id] it was read from, and an id holding a target only or an
    object id only is read back as it was written. *)
Theorem eventID_roundtrip (id : eventID) :
  key_of (id_of_key (key_of id)) = key_of id
  /\ (ID_ObjId id = "" \/ ID_Target id = zeroTarget -> id_of_key (key_of id) = id).
Proof.
  destruct id as [t o]. split.
  - destruct o; reflexivity.
  - simpl. intros [-> | ->]; [reflexivity |]. destruct o; reflexivity.
Qed.

(** ** Query compilation *)

Lemma groupPermissions_fold (ps : list Permission)
    (m : gmap string (list PermissionContext)) (name : string) :
  foldl (fun permMap p =>
           let name := FullName (Perm_Scheme p) in
           <[name := default [] (permMap !! name) ++ [Perm_Context p]]> permMap) m ps
  !! name
  = match Perm_Context <$> filter (fun p => FullName (Perm_Scheme p) = name) ps with
    | [] => m !! name
    | ctxs => Some (default [] (m !! name) ++ ctxs)
    end.
Proof.
  revert m. induction ps as [| p ps IH]; intros m; [reflexivity |].
  cbn [foldl]. rewrite IH. rewrite filter_cons.
  destruct (decide (FullName (Perm_Scheme p) = name)) as [-> | Hne].
  - rewrite lookup_insert_eq. cbn [default fmap list_fmap].
    destruct (Perm_Context <$> filter _ ps) as [| c cs].
    + reflexivity.
    + unfold id. rewrite <- app_assoc. reflexivity.
  - rewrite lookup_insert_ne by exact Hne. reflexivity.
Qed.

(** X2. The permissions are grouped by the full name of their scheme: a
    scheme no permission has is not in the map, and the others map to the
    contexts of their permissions, in the order of the slice. *)
Theorem groupPermissions_lookup (ps : list Permission) (name : string) :
  groupPermissions ps !! name
  = match Perm_Context <$> filter (fun p => FullName (Perm_Scheme p) = name) ps with
    | [] => None
    | ctxs => Some ctxs
    end.
Proof.
  unfold groupPermissions. rewrite groupPermissions_fold.
  rewrite lookup_empty. reflexivity.
Qed.

Lemma ctxsToBson_spec (ctxs : list PermissionContext) (acc : list bval) :
  ctxsToBson ctxs acc
  = if existsb (fun c => String.eqb (CtxType c) CtxGlobal) ctxs then None
    else Some (acc ++ (ctxDoc <$> ctxs)).
Proof.
  revert acc. induction ctxs as [| c ctxs IH]; intros acc; cbn [ctxsToBson existsb].
  - rewrite app_nil_r. reflexivity.
  - destruct (String.eqb (CtxType c) CtxGlobal); [reflexivity |].
    cbn [orb]. rewrite IH. destruct (existsb _ ctxs); [reflexivity |].
    rewrite <- app_assoc. reflexivity.
Qed.

(** X3. The clause of a scheme always holds the prefix match on
    [allowed.scheme], dots escaped; it holds the [$in] on
    [allowed.contexts], with every context of the caller in order, unless
    one of the contexts is global, in which case the clause has no
    condition on the contexts at all. *)
Theorem permClause_global_nullifies (perm : string) (ctxs : list PermissionContext) :
  permClause perm ctxs !! "allowed.scheme"
  = Some (BM {[ "$regex" := BStr ("^" +:+ escapeDots perm) ]})
  /\ permClause perm ctxs !! "allowed.contexts"
     = (if existsb (fun c => String.eqb (CtxType c) CtxGlobal) ctxs then None
        else Some (BM {[ "$in" := BArr (ctxDoc <$> ctxs) ]})).
Proof.
  unfold permClause. rewrite ctxsToBson_spec.
  destruct (existsb _ ctxs); split; by simplify_map_eq.
Qed.

Lemma setIf_lookup_ne (c : bool) (k k' : string) (v : bval) (query : gmap string bval) :
  k <> k' -> setIf c k v query !! k' = query !! k'.
Proof. intros Hne. unfold setIf. destruct c; [by rewrite lookup_insert_ne | reflexivity]. Qed.

Lemma toQuery_fields_or (f : Filter) (query : gmap string bval) :
  F_Raw f = None -> toQuery_fields f query !! "$or" = query !! "$or".
Proof.
  intros Hraw. unfold toQuery_fields. rewrite Hraw.
  rewrite !setIf_lookup_ne by discriminate.
  destruct (F_Running f); [rewrite lookup_insert_ne by discriminate |];
    rewrite !setIf_lookup_ne by discriminate; reflexivity.
Qed.

(** X4. [toQuery] fails, with [errInvalidQuery], exactly when
    [AllowedTargets] is non-nil and empty.  A non-nil empty [Permissions]
    is no such case: without allowed targets and raw clauses it compiles to
    a query whose [$or] is the empty array. *)
Theorem toQuery_degenerate (f : Filter) :
  (toQuery f).2
  = match F_AllowedTargets f with Some [] => Some errInvalidQuery | _ => None end
  /\ ((toQuery f).1 = None <-> F_AllowedTargets f = Some [])
  /\ (F_AllowedTargets f = None -> F_Raw f = None ->
      forall ps, F_Permissions f = Some ps ->
      exists query, toQuery f = (Some query, None)
                    /\ query !! "$or" = Some (BArr (permOrBlock ps))
                    /\ (ps = [] -> query !! "$or" = Some (BArr []))).
Proof.
  unfold toQuery. split; [| split].
  - destruct (F_AllowedTargets f) as [[| a ats] |]; reflexivity.
  - destruct (F_AllowedTargets f) as [[| a ats] |]; simpl; split; congruence.
  - intros Hats Hraw ps Hps. rewrite Hats, Hps. eexists. split; [reflexivity |].
    rewrite toQuery_fields_or by exact Hraw. rewrite lookup_insert_eq.
    split; [reflexivity |]. intros ->. reflexivity.
Qed.

(** X5. The raw clauses are merged last: the compiled query is the union
    of [Raw] and of the query compiled without it, [Raw] taking precedence,
    so that every key of [Raw], the authorization block [$or] and
    [removedate] included, has the value [Raw] gives it. *)
Theorem toQuery_raw_overrides (f : Filter) (raw query : gmap string bval) :
  toQuery (withRaw (Some raw) f) = (Some query, None) ->
  exists query0,
    toQuery (withRaw None f) = (Some query0, None)
    /\ query = raw ∪ query0
    /\ (forall k v, raw !! k = Some v -> query !! k = Some v)
    /\ (forall k, raw !! k = None -> query !! k = query0 !! k).
Proof.
  unfold toQuery. cbn [F_AllowedTargets F_Permissions withRaw].
  set (q0 := match F_Permissions f with Some ps => _ | None => _ end).
  assert (Hfields : forall q, toQuery_fields (withRaw (Some raw) f) q
                              = raw ∪ toQuery_fields (withRaw None f) q) by reflexivity.
  destruct (F_AllowedTargets f) as [ats |].
  - destruct (length _ =? 0)%nat; [discriminate |].
    intros Hq. inversion Hq as [Hq']. rewrite Hfields.
    eexists. split; [reflexivity |]. split; [reflexivity |]. split.
    + intros k v Hk. apply lookup_union_Some_l. exact Hk.
    + intros k Hk. apply lookup_union_r. exact Hk.
  - intros Hq. inversion Hq as [Hq']. rewrite Hfields.
    eexists. split; [reflexivity |]. split; [reflexivity |]. split.
    + intros k v Hk. apply lookup_union_Some_l. exact Hk.
    + intros k Hk. apply lookup_union_r. exact Hk.
Qed.

Section MoreProperties.

Context `{Collaborators}.

Ltac simp_rec :=
  cbn [events clock dbConnErr throttlingInfo updaterSet objectIdCounter trace
       record records set_events set_updaterSet set_objectIdCounter
       set_throttlingInfo updater_add updater_remove advance
       ID UniqueID StartTime EndTime Target_ StartCustomData EndCustomData
       OtherCustomData Kind_ Owner_ LockUpdateTime Error_ Log RemoveDate
       CancelInfo Cancelable Running Allowed_ AllowedCancel
       set_ID set_EndTime set_EndCustomData set_OtherCustomData set_Error
       set_Log set_Running set_CancelInfo set_RemoveDate set_StartCustomData
       data logBuffer set_data ID_Target ID_ObjId
       CI_Owner CI_StartTime CI_AckTime CI_Reason CI_Asked CI_Canceled
       fst snd fmap option_fmap option_map] in *.

(** ** Listing *)

(** X6. After [PruneUserValues], [List] asks the store for at least one and
    at most a hundred events, never with a negative skip; a filter that was
    not pruned and has a negative limit is listed without any limit. *)
Theorem List_limit (f : Filter) (w : World) :
  dbConnErr w = None ->
  let result (query : gmap string bval) (limit : option Z) :=
    let '(allData, err) :=
      Query_All (Some query) (if nonEmpty (F_Sort f) then F_Sort f else "-starttime")
                limit (if 0 <? F_Skip f then Some (F_Skip f) else None) (events w) in
    match err with
    | Some err => ([], Some err, record (OpAll (Some query)) w)
    | None => ((fun d => mkEvent d "") <$> allData, None, record (OpAll (Some query)) w)
    end in
  (exists query limit,
      toQuery (PruneUserValues f) = (Some query, None)
      /\ 1 <= limit <= 100
      /\ List (Some (PruneUserValues f)) w = result query (Some limit))
  /\ (forall query, F_Limit f < 0 -> toQuery f = (Some query, None) ->
                    List (Some f) w = result query None).
Proof.
  intros Hconn result. split.
  - exists (toQuery_fields (PruneUserValues f) ∅), (F_Limit (PruneUserValues f)).
    split; [reflexivity |].
    assert (Hlim : 1 <= F_Limit (PruneUserValues f) <= 100).
    { unfold PruneUserValues, filterMaxLimit. simpl.
      destruct (Z.ltb_spec 100 (F_Limit f)), (Z.leb_spec (F_Limit f) 0); simpl; lia. }
    split; [exact Hlim |].
    unfold List. cbn [toQuery F_AllowedTargets F_Permissions PruneUserValues].
    cbv beta iota zeta. rewrite Hconn.
    destruct (Z.eqb_spec (F_Limit (PruneUserValues f)) 0) as [Hz | _]; [lia |].
    cbn [negb]. destruct (Z.ltb_spec 0 (F_Limit (PruneUserValues f))); [| lia].
    subst result. cbv beta. cbn [F_Skip F_Sort PruneUserValues]. simp_rec.
    destruct (0 <? F_Skip f) eqn:Hs; [rewrite Hs |]; reflexivity.
  - intros query Hneg Hq. unfold List. rewrite Hq. cbv beta iota zeta. rewrite Hconn.
    destruct (Z.eqb_spec (F_Limit f) 0) as [Hz | _]; [lia |].
    cbn [negb]. destruct (Z.ltb_spec 0 (F_Limit f)); [lia |].
    subst result. cbv beta. simp_rec.
    destruct (0 <? F_Skip f) eqn:Hs; [rewrite Hs |]; reflexivity.
Qed.


(** ** Cancellation *)

Lemma TryCancel_found (e : Event) (reason owner : string) (w : World) (row : eventData) :
  Cancelable (data e) = true -> Running (data e) = true ->
  dbConnErr w = None ->
  events w !! key_of (ID (data e)) = Some row ->
  TryCancel e reason owner w
  = if CI_Asked (CancelInfo row) then (Some ErrEventNotFound, e, w)
    else
      let k := key_of (ID (data e)) in
      let row' := set_CancelInfo (mkCancelInfo owner (clock w) 0 reason true false) row in
      (None, set_data (set_ID (id_of_key k) row') e,
       set_events (<[k := row']> (events w)) w).
Proof.
  intros Hc Hr Hconn Hrow. unfold TryCancel.
  rewrite Hc, Hr, Hconn, Hrow. cbn [negb orb].
  destruct (CI_Asked (CancelInfo row)); reflexivity.
Qed.

Lemma AckCancel_found (e : Event) (w : World) (row : eventData) :
  Cancelable (data e) = true -> Running (data e) = true ->
  dbConnErr w = None ->
  events w !! key_of (ID (data e)) = Some row ->
  AckCancel e w
  = if CI_Asked (CancelInfo row) then
      let k := key_of (ID (data e)) in
      let ci := CancelInfo row in
      let row' := set_CancelInfo
                    (mkCancelInfo (CI_Owner ci) (CI_StartTime ci) (clock w)
                                  (CI_Reason ci) (CI_Asked ci) true) row in
      (true, None, set_data (set_ID (id_of_key k) row') e,
       set_events (<[k := row']> (events w)) w)
    else (false, None, e, w).
Proof.
  intros Hc Hr Hconn Hrow. unfold AckCancel.
  rewrite Hc, Hr, Hconn, Hrow. cbn [negb orb]. reflexivity.
Qed.


(** X8. An acknowledgement follows a request.  Before any request
    [AckCancel] returns false and changes nothing; after [TryCancel] it
    returns true and the stored document is canceled, acknowledged at the
    time of the call, with the owner, the reason and the time of the
    request. *)
Theorem AckCancel_follows_ask (e : Event) (reason owner : string) (dt : Z)
    (w : World) (row : eventData) :
  Cancelable (data e) = true -> Running (data e) = true ->
  dbConnErr w = None ->
  events w !! key_of (ID (data e)) = Some row ->
  CI_Asked (CancelInfo row) = false ->
  let k := key_of (ID (data e)) in
  let asked := advance dt (TryCancel e reason owner w).2 in
  let r := AckCancel e asked in
  AckCancel e w = (false, None, e, w)
  /\ r.1.1.1 = true /\ r.1.1.2 = None
  /\ events r.2 !! k
     = Some (set_CancelInfo
               (mkCancelInfo owner (clock w) (clock w + dt) reason true true) row)
  /\ data r.1.2
     = set_ID (id_of_key k)
         (set_CancelInfo (mkCancelInfo owner (clock w) (clock w + dt) reason true true) row)
  /\ (forall k', k' <> k -> events r.2 !! k' = events w !! k').
Proof.
  intros Hc Hr Hconn Hrow Hasked k asked r.
  split.
  { rewrite (AckCancel_found e w row Hc Hr Hconn Hrow), Hasked. reflexivity. }
  subst r asked.
  rewrite (TryCancel_found e reason owner w row Hc Hr Hconn Hrow), Hasked.
  cbv zeta. fold k. simp_rec.
  rewrite (AckCancel_found e _
             (set_CancelInfo (mkCancelInfo owner (clock w) 0 reason true false) row)
             Hc Hr); simp_rec; [| exact Hconn | apply lookup_insert_eq].
  cbv zeta. fold k. simp_rec.
  split; [reflexivity |]. split; [reflexivity |].
  split; [rewrite lookup_insert_eq; destruct row; reflexivity |].
  split; [destruct row; reflexivity |].
  intros k' Hk'. rewrite !lookup_insert_ne by congruence. reflexivity.
Qed.

(** X9. On every stored document, [canceled] implies [asked]: [TryCancel]
    and [AckCancel] keep that. *)
Theorem cancel_keeps_canceled_implies_asked (e : Event) (reason owner : string)
    (w : World) :
  (forall k d, events w !! k = Some d ->
               CI_Canceled (CancelInfo d) = true -> CI_Asked (CancelInfo d) = true) ->
  forall k d,
    events (TryCancel e reason owner w).2 !! k = Some d
    \/ events (AckCancel e w).2 !! k = Some d ->
    CI_Canceled (CancelInfo d) = true -> CI_Asked (CancelInfo d) = true.
Proof.
  intros Hinv k d [Hd | Hd] Hcanceled.
  - unfold TryCancel in Hd.
    destruct (negb _ || negb _); [eapply Hinv; eassumption |].
    destruct (dbConnErr w); [eapply Hinv; eassumption |].
    destruct (events w !! key_of (ID (data e))) as [row |] eqn:Hrow;
      [| eapply Hinv; eassumption].
    destruct (CI_Asked (CancelInfo row)); [eapply Hinv; eassumption |].
    cbn [negb] in Hd. simp_rec.
    destruct (decide (key_of (ID (data e)) = k)) as [<- | Hne].
    + rewrite lookup_insert_eq in Hd. inversion Hd; subst. reflexivity.
    + rewrite lookup_insert_ne in Hd by exact Hne. eapply Hinv; eassumption.
  - unfold AckCancel in Hd.
    destruct (negb _ || negb _); [eapply Hinv; eassumption |].
    destruct (dbConnErr w); [eapply Hinv; eassumption |].
    destruct (events w !! key_of (ID (data e))) as [row |] eqn:Hrow;
      [| eapply Hinv; eassumption].
    destruct (CI_Asked (CancelInfo row)) eqn:Hasked; [| eapply Hinv; eassumption].
    simp_rec. destruct (decide (key_of (ID (data e)) = k)) as [<- | Hne].
    + rewrite lookup_insert_eq in Hd. inversion Hd; subst. reflexivity.
    + rewrite lookup_insert_ne in Hd by exact Hne. eapply Hinv; eassumption.
Qed.


(** ** The store, once more *)

Lemma coll_Insert_other (d : eventData) (w : World) (k' : Key) :
  k' <> key_of (ID d) -> events (coll_Insert d w).2 !! k' = events w !! k'.
Proof.
  intros Hne. unfold coll_Insert. simp_rec.
  destruct (events w !! key_of (ID d)); simp_rec; [reflexivity |].
  apply lookup_insert_ne. congruence.
Qed.

Lemma coll_UpdateId_other (k : Key) (d : eventData) (w : World) (k' : Key) :
  k' <> k -> events (coll_UpdateId k d w).2 !! k' = events w !! k'.
Proof.
  intros Hne. unfold coll_UpdateId. simp_rec.
  destruct (events w !! k); simp_rec; [| reflexivity].
  apply lookup_insert_ne. congruence.
Qed.

Lemma coll_Insert_process (d : eventData) (w : World) :
  let w' := (coll_Insert d w).2 in
  clock w' = clock w /\ dbConnErr w' = dbConnErr w
  /\ updaterSet w' = updaterSet w /\ objectIdCounter w' = objectIdCounter w.
Proof.
  unfold coll_Insert. simp_rec.
  destruct (events w !! key_of (ID d)); simp_rec; tauto.
Qed.

Lemma coll_UpdateId_process (k : Key) (d : eventData) (w : World) :
  let w' := (coll_UpdateId k d w).2 in
  clock w' = clock w /\ dbConnErr w' = dbConnErr w
  /\ updaterSet w' = updaterSet w /\ objectIdCounter w' = objectIdCounter w.
Proof.
  unfold coll_UpdateId. simp_rec.
  destruct (events w !! k); simp_rec; tauto.
Qed.

Lemma coll_RemoveId_process (k : Key) (w : World) :
  let w' := (coll_RemoveId k w).2 in
  clock w' = clock w /\ dbConnErr w' = dbConnErr w
  /\ updaterSet w' = updaterSet w /\ objectIdCounter w' = objectIdCounter w.
Proof.
  unfold coll_RemoveId. simp_rec.
  destruct (events w !! k); simp_rec; tauto.
Qed.

(** [done], whatever its arguments and its outcome: the clock, the
    connection and the id counter are as before, the event's target is out
    of the updater's set, and no document is touched but the one under the
    event's id and the one under its unique id. *)
Lemma done_frame (e : Event) (evtErr : option error) (customData : GoValue)
    (abort : bool) (w : World) :
  let w' := (done e evtErr customData abort w).2 in
  clock w' = clock w /\ dbConnErr w' = dbConnErr w
  /\ updaterSet w' = updaterSet w ∖ {[ Target_ (data e) ]}
  /\ objectIdCounter w' = objectIdCounter w
  /\ forall k', k' <> key_of (ID (data e)) ->
                k' <> key_of (mkEventID zeroTarget (UniqueID (data e))) ->
                events w' !! k' = events w !! k'.
Proof.
  unfold done. set (w0 := updater_remove (Target_ (data e)) w).
  change (dbConnErr w0) with (dbConnErr w).
  destruct (dbConnErr w) as [cerr |] eqn:Hconn.
  { subst w0. simp_rec. rewrite Hconn. repeat split. }
  destruct abort.
  - pose proof (coll_RemoveId_process (key_of (ID (data e))) w0) as (Hc & Hd & Hu & Ho).
    pose proof (fun k' => coll_RemoveId_other (key_of (ID (data e))) k' w0) as Hother.
    destruct (coll_RemoveId (key_of (ID (data e))) w0) as [err w1].
    cbn [fst snd] in *. subst w0. simp_rec.
    rewrite Hc, Hd, Hu, Ho. repeat split; try assumption.
    intros k' Hk' _. rewrite Hother by congruence. reflexivity.
  - destruct (makeBSONRaw customData) as [raw [merr |]].
    { subst w0. simp_rec. rewrite Hconn. repeat split. }
    rewrite done_filled. unfold coll_FindId. cbv beta iota zeta. simp_rec.
    set (d := match _ <$> _ with Some _ => _ | None => _ end).
    assert (Hid : ID d = ID (data e)).
    { subst d. destruct (_ <$> _); reflexivity. }
    assert (Huid : UniqueID d = UniqueID (data e)).
    { subst d. destruct (_ <$> _); reflexivity. }
    clearbody d. rewrite Hid, Huid.
    set (w1 := record _ w0).
    destruct (negb _).
    + pose proof (coll_UpdateId_process (key_of (ID (data e))) d w1) as (Hc & Hd & Hu & Ho).
      pose proof (coll_UpdateId_other (key_of (ID (data e))) d w1) as Hother.
      destruct (coll_UpdateId (key_of (ID (data e))) d w1) as [err w2].
      cbn [fst snd] in *. subst w1 w0. simp_rec.
      rewrite Hc, Hd, Hu, Ho. repeat split; try assumption.
      intros k' Hk' _. rewrite Hother by congruence. reflexivity.
    + set (d' := set_ID _ d).
      assert (Hkd : key_of (ID d') = key_of (mkEventID zeroTarget (UniqueID (data e))))
        by reflexivity.
      pose proof (coll_Insert_process d' w1) as (Hc & Hd & Hu & Ho).
      pose proof (coll_Insert_other d' w1) as Hother.
      destruct (coll_Insert d' w1) as [err w2].
      pose proof (coll_RemoveId_process (key_of (ID (data e))) w2) as (Hc2 & Hd2 & Hu2 & Ho2).
      pose proof (fun k' => coll_RemoveId_other (key_of (ID (data e))) k' w2) as Hother2.
      destruct (coll_RemoveId (key_of (ID (data e))) w2) as [rerr w3].
      cbn [fst snd] in *. subst w1 w0. simp_rec.
      rewrite Hc2, Hd2, Hu2, Ho2, Hc, Hd, Hu, Ho. repeat split; try assumption.
      intros k' Hk' Hk''. rewrite Hother2 by congruence.
      rewrite Hother by (rewrite Hkd; congruence). reflexivity.
Qed.


(** ** Creation, on every path *)

Lemma others_kept_refl (k : Key) (w : World) : others_kept k w w.
Proof. repeat split. Qed.

Lemma others_kept_trans (k : Key) (w1 w2 w3 : World) :
  others_kept k w1 w2 -> others_kept k w2 w3 -> others_kept k w1 w3.
Proof.
  intros (Hc & Hd & Hf) (Hc' & Hd' & Hf'). repeat split; try congruence.
  intros t' Hz Hk. rewrite Hf' by assumption. apply Hf; assumption.
Qed.

Lemma archive_key_not_target (u : ObjectId) (t' : Target) :
  t' <> zeroTarget -> KTarget t' <> key_of (mkEventID zeroTarget u).
Proof.
  intros Hz. destruct u; simpl; intros Heq; [| discriminate].
  inversion Heq. contradiction.
Qed.

Lemma Done_others_kept (e : Event) (evtErr : option error) (w : World) :
  others_kept (key_of (ID (data e))) w (Done e evtErr w).2.
Proof.
  destruct (done_frame e evtErr GoNil false w) as (Hc & Hd & _ & _ & Hf).
  repeat split; try assumption.
  intros t' Hz Hk. apply Hf; [exact Hk | apply archive_key_not_target; exact Hz].
Qed.

Lemma coll_Insert_others_kept (d : eventData) (w : World) :
  others_kept (key_of (ID d)) w (coll_Insert d w).2.
Proof.
  destruct (coll_Insert_process d w) as (Hc & Hd & _ & _).
  repeat split; try assumption.
  intros t' _ Hk. apply coll_Insert_other. exact Hk.
Qed.

Lemma checkIsExpired_others_kept (id : eventID) (w : World) :
  others_kept (key_of id) w (checkIsExpired id w).2.
Proof.
  unfold checkIsExpired, coll_FindId. cbv beta iota zeta. simp_rec.
  destruct (events w !! key_of id) as [row |]; simp_rec; [| repeat split].
  destruct (_ <? _); [| repeat split].
  set (holder := mkEvent _ _). set (w1 := record _ w).
  pose proof (Done_others_kept holder (Some (errorString
     ("event expired, no update for " +:+ Duration_String (clock w - LockUpdateTime row)))) w1)
    as Hk.
  assert (Hkey : key_of (ID (data holder)) = key_of id).
  { subst holder. simp_rec. apply key_of_read_back. }
  rewrite Hkey in Hk.
  destruct (Done holder _ w1) as [[derr e'] w2]. cbn [snd] in *.
  eapply others_kept_trans; [| exact Hk]. repeat split.
Qed.

(** Whatever the loop returns, it has touched no lock but the one of the
    event's own id. *)
Lemma insertLoop_others_kept (fuel : nat) (opts : Opts) (evt : Event) :
  forall (i mr : nat) (err : option error) (w : World) r w',
    insertLoop fuel opts evt i mr err w = Some (r, w') ->
    others_kept (key_of (ID (data evt))) w w'.
Proof.
  induction fuel as [| fuel IH]; intros i mr err w r w' Hloop; [discriminate |].
  cbn [insertLoop] in Hloop.
  destruct (i <? mr + 1)%nat;
    [| inversion Hloop; subst; apply others_kept_refl].
  pose proof (coll_Insert_others_kept (data evt) w) as Hins.
  destruct (coll_Insert (data evt) w) as [[insErr |] w1]; cbn [snd] in Hins.
  - destruct (mgo_IsDup insErr);
      [| inversion Hloop; subst; exact Hins].
    assert (Hexp : others_kept (key_of (ID (data evt))) w1
                     (if (mr <=? i)%nat then (false, w1)
                      else checkIsExpired (ID (data evt)) w1).2).
    { destruct (mr <=? i)%nat; [apply others_kept_refl |].
      apply checkIsExpired_others_kept. }
    destruct (if (mr <=? i)%nat then (false, w1) else checkIsExpired (ID (data evt)) w1)
      as [expired w2]. cbn [snd] in Hexp.
    pose proof (others_kept_trans _ _ _ _ Hins Hexp) as H12.
    destruct ((mr <=? i)%nat || negb expired).
    + unfold coll_FindId in Hloop. cbv beta iota zeta in Hloop.
      destruct (_ <$> _) in Hloop; apply IH in Hloop;
        (eapply others_kept_trans; [exact H12 |]);
        (eapply others_kept_trans; [| exact Hloop]); repeat split.
    + apply IH in Hloop. eapply others_kept_trans; eassumption.
  - destruct (checkIsBlocked evt w1) as [berr |].
    + pose proof (Done_others_kept evt (Some berr) w1) as Hd.
      destruct (Done evt (Some berr) w1) as [[derr e'] w2]. cbn [snd] in Hd.
      inversion Hloop; subst. eapply others_kept_trans; eassumption.
    + inversion Hloop; subst.
      eapply others_kept_trans; [exact Hins |].
      destruct (negb _); repeat split.
Qed.

Lemma archive_key_of_initialEvent (opts : Opts) (k : Kind) (o : Owner) (raw : Raw)
    (uniqID : ObjectId) (now : Z) (t' : Target) :
  t' <> zeroTarget -> t' <> O_Target opts ->
  KTarget t' <> key_of (ID (data (initialEvent opts k o raw uniqID now))).
Proof.
  intros Hz Ht. unfold initialEvent. cbn [data ID].
  destruct (O_DisableLock opts).
  - apply archive_key_not_target. exact Hz.
  - simpl. intros Heq. inversion Heq. contradiction.
Qed.

(** X10. Creation on one target leaves the locks of the other targets
    alone: whatever [newEvt] returns, a document stored under another
    target is what it was. *)
Theorem newEvt_keeps_other_locks (fuel : nat) (opts : Opts) (w w' : World)
    (r : option Event * option error) (t' : Target) :
  newEvt fuel (Some opts) w = Some (r, w') ->
  t' <> O_Target opts -> t' <> zeroTarget ->
  events w' !! KTarget t' = events w !! KTarget t'.
Proof.
  intros Hnew Ht Hz. unfold newEvt in Hnew.
  destruct (checkOpts opts); [inversion Hnew; subst; reflexivity |].
  destruct (optsKind opts) as [k [kerr |]]; [inversion Hnew; subst; reflexivity |].
  destruct (dbConnErr w); [inversion Hnew; subst; reflexivity |].
  destruct (checkThrottling_state (O_Target opts) k w) as (Hev & _).
  destruct (checkThrottling (O_Target opts) k w) as [[terr |] w1]; cbn [snd] in Hev;
    [inversion Hnew; subst; rewrite Hev; reflexivity |].
  destruct (makeBSONRaw (O_CustomData opts)) as [raw [merr |]];
    [inversion Hnew; subst; rewrite Hev; reflexivity |].
  apply insertLoop_others_kept in Hnew. destruct Hnew as (_ & _ & Hf).
  rewrite Hf; [simp_rec; rewrite Hev; reflexivity | exact Hz |].
  apply archive_key_of_initialEvent; assumption.
Qed.


Lemma insertLoop_success (fuel : nat) (opts : Opts) (evt : Event) :
  forall (i mr : nat) (err : option error) (w : World) e' rerr w',
    insertLoop fuel opts evt i mr err w = Some (Some e', rerr, w') ->
    e' = evt /\ rerr = None
    /\ events w' !! key_of (ID (data evt)) = Some (data evt)
    /\ (O_DisableLock opts = false -> O_Target opts ∈ updaterSet w').
Proof.
  induction fuel as [| fuel IH]; intros i mr err w e' rerr w' Hloop; [discriminate |].
  cbn [insertLoop] in Hloop.
  destruct (i <? mr + 1)%nat; [| discriminate].
  pose proof (coll_Insert_ok (data evt) w) as Hok.
  destruct (coll_Insert (data evt) w) as [[insErr |] w1].
  - destruct (mgo_IsDup insErr); [| discriminate].
    destruct (if (mr <=? i)%nat then (false, w1) else checkIsExpired (ID (data evt)) w1)
      as [expired w2].
    destruct ((mr <=? i)%nat || negb expired).
    + unfold coll_FindId in Hloop. cbv beta iota zeta in Hloop.
      destruct (_ <$> _) in Hloop; eapply IH; exact Hloop.
    + eapply IH; exact Hloop.
  - destruct (checkIsBlocked evt w1) as [berr |].
    + destruct (Done evt (Some berr) w1) as [[derr e''] w2]. discriminate.
    + injection Hloop as <- <- <-. split; [reflexivity |]. split; [reflexivity |].
      split.
      * destruct (negb _); simp_rec; apply Hok; reflexivity.
      * intros ->. simp_rec. apply elem_of_union_l, elem_of_singleton. reflexivity.
Qed.

(** What is known when [newEvt] returns an event. *)
Lemma newEvt_success_inv (fuel : nat) (opts : Opts) (w w' : World) (evt : Event)
    (rerr : option error) :
  newEvt fuel (Some opts) w = Some (Some evt, rerr, w') ->
  exists k raw,
    checkOpts opts = None /\ optsKind opts = (k, None) /\ dbConnErr w = None
    /\ (checkThrottling (O_Target opts) k w).1 = None
    /\ makeBSONRaw (O_CustomData opts) = (raw, None)
    /\ evt = initialEvent opts k (optsOwner opts) raw
                          (bson_NewObjectId (objectIdCounter w)) (clock w)
    /\ insertLoop fuel opts evt 0 1 None
         (set_objectIdCounter (S (objectIdCounter w))
                              (checkThrottling (O_Target opts) k w).2)
       = Some (Some evt, rerr, w').
Proof.
  intros Hnew.
  assert (Hraw : exists k raw,
             checkOpts opts = None /\ optsKind opts = (k, None) /\ dbConnErr w = None
             /\ (checkThrottling (O_Target opts) k w).1 = None
             /\ makeBSONRaw (O_CustomData opts) = (raw, None)).
  { unfold newEvt in Hnew.
    destruct (checkOpts opts); [discriminate |].
    destruct (optsKind opts) as [k [kerr |]]; [discriminate |].
    destruct (dbConnErr w); [discriminate |].
    destruct (checkThrottling (O_Target opts) k w) as [[terr |] w1] eqn:Hthr;
      [discriminate |].
    destruct (makeBSONRaw (O_CustomData opts)) as [raw [merr |]]; [discriminate |].
    exists k, raw. rewrite Hthr. repeat split. }
  destruct Hraw as (k & raw & Hopts & Hkind & Hconn & Hthr & Hraw).
  exists k, raw. repeat (split; [assumption |]).
  rewrite (newEvt_reaches_insert fuel opts k raw w Hopts Hkind Hconn Hthr Hraw) in Hnew.
  destruct (insertLoop_success _ _ _ _ _ _ _ _ _ _ Hnew) as (Heq & _).
  split; [exact Heq |]. rewrite Heq at 1. exact Hnew.
Qed.

Lemma newEvt_success_state (fuel : nat) (opts : Opts) (w w' : World)
    (evt : Event) (rerr : option error) :
  newEvt fuel (Some opts) w = Some (Some evt, rerr, w') ->
  rerr = None
  /\ events w' !! key_of (ID (data evt)) = Some (data evt)
  /\ clock w' = clock w /\ dbConnErr w' = None.
Proof.
  intros Hnew.
  destruct (newEvt_success_inv _ _ _ _ _ _ Hnew)
    as (k & raw & Hopts & Hkind & Hconn & Hthr & Hraw & Hevt & Hloop).
  destruct (insertLoop_success _ _ _ _ _ _ _ _ _ _ Hloop) as (_ & Hnil & Hstored & Hupd).
  destruct (insertLoop_others_kept _ _ _ _ _ _ _ _ _ Hloop) as (Hclock & Hdb & _).
  destruct (checkThrottling_state (O_Target opts) k w) as (_ & Hc1 & Hd1 & _).
  simp_rec.
  split; [exact Hnil |]. split; [exact Hstored |].
  split; congruence.
Qed.

(** X11. Whenever [newEvt] returns an event, on whatever path, the error
    is nil and the event is the document the store holds under the event's
    id: running, without end time or error, started and last refreshed at
    the time of the call, on the target of the options, with the unique id
    that [bson.NewObjectId] gave; it is stored under the target when the
    lock is on and under that unique id when it is off; with the lock on
    the target is in the updater's set. *)
Theorem newEvt_returns_stored_event (fuel : nat) (opts : Opts) (w w' : World)
    (evt : Event) (rerr : option error) :
  newEvt fuel (Some opts) w = Some (Some evt, rerr, w') ->
  rerr = None
  /\ events w' !! key_of (ID (data evt)) = Some (data evt)
  /\ Running (data evt) = true /\ EndTime (data evt) = 0 /\ Error_ (data evt) = ""
  /\ StartTime (data evt) = clock w /\ LockUpdateTime (data evt) = clock w
  /\ Target_ (data evt) = O_Target opts
  /\ Target_IsValid (O_Target opts) = true
  /\ UniqueID (data evt) = bson_NewObjectId (objectIdCounter w)
  /\ ID (data evt) = (if O_DisableLock opts
                      then mkEventID zeroTarget (bson_NewObjectId (objectIdCounter w))
                      else mkEventID (O_Target opts) "")
  /\ Owner_ (data evt) = optsOwner opts
  /\ (O_DisableLock opts = false -> O_Target opts ∈ updaterSet w')
  /\ clock w' = clock w /\ dbConnErr w' = None.
Proof.
  intros Hnew.
  destruct (newEvt_success_inv _ _ _ _ _ _ Hnew)
    as (k & raw & Hopts & Hkind & Hconn & Hthr & Hraw & Hevt & Hloop).
  destruct (insertLoop_success _ _ _ _ _ _ _ _ _ _ Hloop) as (_ & Hnil & Hstored & Hupd).
  destruct (insertLoop_others_kept _ _ _ _ _ _ _ _ _ Hloop) as (Hclock & Hdb & _).
  destruct (checkThrottling_state (O_Target opts) k w) as (_ & Hc1 & Hd1 & _).
  simp_rec.
  split; [exact Hnil |]. split; [exact Hstored |].
  assert (Hvalid : Target_IsValid (O_Target opts) = true).
  { unfold checkOpts in Hopts. destruct (Target_IsValid (O_Target opts));
      [reflexivity | discriminate]. }
  rewrite Hevt. unfold initialEvent. simp_rec.
  repeat (split; [reflexivity || assumption |]).
  split; congruence.
Qed.

Lemma GetRunning_of_initialEvent (opts : Opts) (k : Kind) (o : Owner) (raw : Raw)
    (uniqID : ObjectId) (now : Z) (w : World) :
  O_DisableLock opts = false ->
  dbConnErr w = None ->
  let evt := initialEvent opts k o raw uniqID now in
  events w !! KTarget (O_Target opts) = Some (data evt) ->
  GetRunning (O_Target opts) (Kind_Name k) w = (Some evt, None).
Proof.
  intros Hlock Hconn evt Hstored. unfold GetRunning. rewrite Hconn.
  cbn [key_of ID_ObjId ID_Target String.length Nat.eqb negb]. rewrite Hstored.
  subst evt. unfold initialEvent. simp_rec. rewrite Hlock, String.eqb_refl.
  reflexivity.
Qed.

(** X12. The course of an event created with the lock.  While it runs,
    [GetRunning] on its target and kind returns it.  [Done] with a nil error
    at a later time, when no document is stored under the event's unique id
    yet, returns nil and stores the event under that id, not running,
    without error, ended at the time of [Done] and started at the time of
    creation; the target's slot is free, the target is out of the updater's
    set, and [GetRunning] returns [ErrEventNotFound]. *)
Theorem newEvt_then_Done (fuel : nat) (opts : Opts) (w w' : World) (evt : Event)
    (dt : Z) :
  newEvt fuel (Some opts) w = Some (Some evt, None, w') ->
  O_DisableLock opts = false ->
  UniqueID (data evt) <> "" ->
  events w' !! KObjId (UniqueID (data evt)) = None ->
  let kind := Kind_Name (Kind_ (data evt)) in
  let r := Done evt None (advance dt w') in
  GetRunning (O_Target opts) kind w' = (Some evt, None)
  /\ r.1.1 = None
  /\ events r.2 !! KTarget (O_Target opts) = None
  /\ events r.2 !! KObjId (UniqueID (data evt)) = Some (data r.1.2)
  /\ Running (data r.1.2) = false /\ Error_ (data r.1.2) = ""
  /\ StartTime (data r.1.2) = clock w /\ EndTime (data r.1.2) = clock w + dt
  /\ UniqueID (data r.1.2) = UniqueID (data evt)
  /\ (O_Target opts ∉ updaterSet r.2)
  /\ GetRunning (O_Target opts) kind r.2 = (None, Some ErrEventNotFound).
Proof.
  intros Hnew Hlock Huid Hfree kind r. subst kind r.
  destruct (newEvt_success_inv _ _ _ _ _ _ Hnew)
    as (k & raw & Hopts & Hkind & Hconn & Hthr & Hraw & Hevt & Hloop).
  destruct (newEvt_success_state fuel opts w w' evt None Hnew)
    as (_ & Hstored & Hclock & Hdb).
  assert (Hid : ID (data evt) = mkEventID (O_Target opts) "").
  { rewrite Hevt. unfold initialEvent. rewrite Hlock. reflexivity. }
  assert (Htarget : Target_ (data evt) = O_Target opts).
  { rewrite Hevt. reflexivity. }
  rewrite Hid in Hstored. cbn [key_of ID_ObjId ID_Target String.length Nat.eqb negb] in Hstored.
  split.
  { rewrite Hevt in Hstored |- *.
    apply GetRunning_of_initialEvent; assumption. }
  destruct (Done_locked_result evt None (advance dt w') (O_Target opts))
    as (Herr & Hrun & Hend & Hid' & Hslot & Harch & _); [exact Hdb | exact Hid |].
  destruct (done_frame evt None GoNil false (advance dt w')) as (_ & Hdb' & Hupd & _).
  change (done evt None GoNil false (advance dt w'))
    with (Done evt None (advance dt w')) in Hdb', Hupd.
  destruct (Harch Huid Hfree) as (Hnil & Harchived).
  split; [exact Hnil |]. split; [exact Hslot |]. split; [exact Harchived |].
  split; [exact Hrun |].
  split. { rewrite Herr, Hevt. reflexivity. }
  assert (Hdata : data ((Done evt None (advance dt w')).1.2)
                  = set_ID (mkEventID zeroTarget (UniqueID (data evt)))
                      (closedData evt None (clock w' + dt) (rereadOther evt (advance dt w')))).
  { unfold Done.
    rewrite (done_locked evt None (advance dt w') Hdb) by (rewrite Hid; reflexivity).
    cbv zeta. destruct (coll_Insert _ _) as [ierr wa].
    destruct (coll_RemoveId _ wa) as [rerr wb]. reflexivity. }
  split. { rewrite Hdata, Hevt. reflexivity. }
  split. { rewrite Hend. simp_rec. rewrite Hclock. reflexivity. }
  split. { rewrite Hdata. reflexivity. }
  split.
  { rewrite Hupd, Htarget, elem_of_difference, elem_of_singleton. tauto. }
  unfold GetRunning. rewrite Hdb'. simp_rec. rewrite Hdb.
  cbn [key_of ID_ObjId ID_Target String.length Nat.eqb negb]. rewrite Hslot. reflexivity.
Qed.


(** Creation when no document is stored under the event's id. *)
Lemma newEvt_free_slot (fuel : nat) (opts : Opts) (k : Kind) (raw : Raw) (w : World) :
  (1 <= fuel)%nat ->
  checkOpts opts = None ->
  optsKind opts = (k, None) ->
  dbConnErr w = None ->
  (checkThrottling (O_Target opts) k w).1 = None ->
  makeBSONRaw (O_CustomData opts) = (raw, None) ->
  let evt := initialEvent opts k (optsOwner opts) raw
                          (bson_NewObjectId (objectIdCounter w)) (clock w) in
  let kt := key_of (ID (data evt)) in
  let w2 := set_objectIdCounter (S (objectIdCounter w))
                                (checkThrottling (O_Target opts) k w).2 in
  let wi := set_events (<[kt := data evt]> (events w)) (record (OpInsert kt) w2) in
  events w !! kt = None ->
  newEvt fuel (Some opts) w
  = match checkIsBlocked evt wi with
    | None => Some (Some evt, None,
                    if negb (O_DisableLock opts) then updater_add (O_Target opts) wi
                    else wi)
    | Some err => Some (None, Some err, (Done evt (Some err) wi).2)
    end.
Proof.
  intros Hfuel Hopts Hkind Hconn Hthr Hraw evt kt w2 wi Hfree.
  rewrite (newEvt_reaches_insert fuel opts k raw w Hopts Hkind Hconn Hthr Hraw).
  fold evt w2.
  destruct (checkThrottling_state (O_Target opts) k w) as (Hev & _).
  assert (Hev2 : events w2 = events w) by exact Hev.
  destruct fuel as [| fuel]; [lia |].
  rewrite (insertLoop_round_free fuel opts evt 0 1 None w2 (Nat.le_0_l 1))
    by (rewrite Hev2; exact Hfree).
  fold kt. rewrite Hev2. reflexivity.
Qed.

(** X13. [Abort] undoes a creation on a free target: after [newEvt] with
    the lock on a target that was free, [Abort] returns nil and the
    collection is what it was before the creation; the target is out of the
    updater's set. *)
Theorem newEvt_then_Abort (fuel : nat) (opts : Opts) (w w' : World) (evt : Event) :
  newEvt fuel (Some opts) w = Some (Some evt, None, w') ->
  O_DisableLock opts = false ->
  events w !! KTarget (O_Target opts) = None ->
  (Abort evt w').1.1 = None
  /\ events (Abort evt w').2 = events w
  /\ (O_Target opts ∉ updaterSet (Abort evt w').2).
Proof.
  intros Hnew Hlock Hfree.
  destruct (newEvt_success_inv _ _ _ _ _ _ Hnew)
    as (k & raw & Hopts & Hkind & Hconn & Hthr & Hraw & Hevt & Hloop).
  assert (Hfuel : (1 <= fuel)%nat) by (destruct fuel; [discriminate | lia]).
  assert (Hkey : key_of (ID (data evt)) = KTarget (O_Target opts)).
  { rewrite Hevt. unfold initialEvent. rewrite Hlock. reflexivity. }
  assert (Htarget : Target_ (data evt) = O_Target opts) by (rewrite Hevt; reflexivity).
  pose proof (newEvt_free_slot fuel opts k raw w Hfuel Hopts Hkind Hconn Hthr Hraw) as Hexact.
  cbv zeta in Hexact. rewrite <- Hevt, Hkey, Hlock in Hexact.
  rewrite (Hexact Hfree) in Hnew. clear Hexact.
  destruct (checkIsBlocked evt _); [discriminate |].
  injection Hnew as <-.
  destruct (checkThrottling_state (O_Target opts) k w) as (_ & _ & Hdb & _).
  unfold Abort, done. simp_rec. rewrite Hdb, Hconn.
  unfold coll_RemoveId. simp_rec. rewrite Hkey, lookup_insert_eq. simp_rec.
  split; [reflexivity |]. split.
  - rewrite delete_insert_eq. apply delete_id. exact Hfree.
  - rewrite Htarget, elem_of_difference, elem_of_singleton. tauto.
Qed.

(** X14. An event created with the lock disabled takes no slot: when no
    document is stored under its fresh unique id, the creation adds that one
    document and nothing else, so that whatever holds the target stays as it
    is, and the updater's set is unchanged. *)
Theorem newEvt_DisableLock (fuel : nat) (opts : Opts) (w w' : World) (evt : Event) :
  newEvt fuel (Some opts) w = Some (Some evt, None, w') ->
  O_DisableLock opts = true ->
  UniqueID (data evt) <> "" ->
  events w !! KObjId (UniqueID (data evt)) = None ->
  events w' = <[KObjId (UniqueID (data evt)) := data evt]> (events w)
  /\ events w' !! KTarget (O_Target opts) = events w !! KTarget (O_Target opts)
  /\ updaterSet w' = updaterSet w.
Proof.
  intros Hnew Hlock Huid Hfree.
  destruct (newEvt_success_inv _ _ _ _ _ _ Hnew)
    as (k & raw & Hopts & Hkind & Hconn & Hthr & Hraw & Hevt & Hloop).
  assert (Hfuel : (1 <= fuel)%nat) by (destruct fuel; [discriminate | lia]).
  assert (Hkey : key_of (ID (data evt)) = KObjId (UniqueID (data evt))).
  { rewrite Hevt in Huid |- *. unfold initialEvent in *. rewrite Hlock. simp_rec.
    apply key_of_objid. exact Huid. }
  pose proof (newEvt_free_slot fuel opts k raw w Hfuel Hopts Hkind Hconn Hthr Hraw) as Hexact.
  cbv zeta in Hexact. rewrite <- Hevt, Hkey, Hlock in Hexact.
  rewrite (Hexact Hfree) in Hnew. clear Hexact.
  destruct (checkIsBlocked evt _); [discriminate |].
  injection Hnew as <-.
  destruct (checkThrottling_state (O_Target opts) k w) as (_ & _ & _ & _ & Hupd).
  simp_rec. split; [reflexivity |]. split; [| exact Hupd].
  apply lookup_insert_ne. discriminate.
Qed.

(** X15. A blocked creation is rolled back.  When the event is inserted
    into a free slot and the block registry refuses it, [newEvt] returns the
    registry's error and no event; [Done] was called with that error: the
    target's slot is free again, the target is out of the updater's set, and
    the event is stored under its unique id, not running, with the text of
    the error. *)
Theorem newEvt_blocked (fuel : nat) (opts : Opts) (k : Kind) (raw : Raw) (w : World)
    (blocked : error) :
  (1 <= fuel)%nat ->
  checkOpts opts = None ->
  optsKind opts = (k, None) ->
  dbConnErr w = None ->
  (checkThrottling (O_Target opts) k w).1 = None ->
  makeBSONRaw (O_CustomData opts) = (raw, None) ->
  O_DisableLock opts = false ->
  let uid := bson_NewObjectId (objectIdCounter w) in
  let evt := initialEvent opts k (optsOwner opts) raw uid (clock w) in
  let kt := KTarget (O_Target opts) in
  let wi := set_events (<[kt := data evt]> (events w))
              (record (OpInsert kt)
                 (set_objectIdCounter (S (objectIdCounter w))
                                      (checkThrottling (O_Target opts) k w).2)) in
  events w !! kt = None ->
  uid <> "" -> events w !! KObjId uid = None ->
  checkIsBlocked evt wi = Some blocked ->
  exists w' archived,
    newEvt fuel (Some opts) w = Some (None, Some blocked, w')
    /\ events w' !! kt = None
    /\ events w' !! KObjId uid = Some archived
    /\ Error_ archived = Error blocked /\ Running archived = false
    /\ UniqueID archived = uid /\ Target_ archived = O_Target opts
    /\ (O_Target opts ∉ updaterSet w').
Proof.
  intros Hfuel Hopts Hkind Hconn Hthr Hraw Hlock uid evt kt wi Hfree Huid Harch Hblocked.
  assert (Hid : ID (data evt) = mkEventID (O_Target opts) "").
  { subst evt. unfold initialEvent. rewrite Hlock. reflexivity. }
  pose proof (newEvt_free_slot fuel opts k raw w Hfuel Hopts Hkind Hconn Hthr Hraw) as Hexact.
  cbv zeta in Hexact. fold uid evt in Hexact. rewrite Hid in Hexact.
  cbn [key_of ID_ObjId ID_Target String.length Nat.eqb negb] in Hexact.
  fold kt wi in Hexact. rewrite (Hexact Hfree), Hblocked. clear Hexact.
  destruct (checkThrottling_state (O_Target opts) k w) as (_ & _ & Hdb & _).
  assert (Hdbi : dbConnErr wi = None) by (subst wi; simp_rec; congruence).
  destruct (Done_locked_result evt (Some blocked) wi (O_Target opts) Hdbi Hid)
    as (Herr & Hrun & _ & _ & Hslot & Hstored & _).
  destruct (done_frame evt (Some blocked) GoNil false wi) as (_ & _ & Hupd & _).
  change (done evt (Some blocked) GoNil false wi) with (Done evt (Some blocked) wi) in Hupd.
  assert (Huid' : UniqueID (data evt) = uid) by reflexivity.
  rewrite Huid' in Hstored.
  destruct Hstored as (_ & Hstored); [exact Huid | |].
  { subst wi. simp_rec. rewrite lookup_insert_ne by discriminate. exact Harch. }
  assert (Hdata : data ((Done evt (Some blocked) wi).1.2)
                  = set_ID (mkEventID zeroTarget uid)
                      (closedData evt (Some blocked) (clock wi) (rereadOther evt wi))).
  { unfold Done. rewrite (done_locked evt (Some blocked) wi Hdbi) by (rewrite Hid; reflexivity).
    cbv zeta. destruct (coll_Insert _ _) as [ierr wa].
    destruct (coll_RemoveId _ wa) as [rerr wb]. reflexivity. }
  exists (Done evt (Some blocked) wi).2, (data (Done evt (Some blocked) wi).1.2).
  split; [reflexivity |]. split; [exact Hslot |]. split; [exact Hstored |].
  split; [exact Herr |]. split; [exact Hrun |].
  split; [rewrite Hdata; reflexivity |]. split; [rewrite Hdata; reflexivity |].
  rewrite Hupd, elem_of_difference, elem_of_singleton.
  assert (Htarget : Target_ (data evt) = O_Target opts) by reflexivity.
  rewrite Htarget. tauto.
Qed.


(** ** Completion, on the stored document *)

Lemma coll_RemoveId_eq (k : Key) (x : eventData) (w : World) :
  events w !! k = Some x ->
  coll_RemoveId k w = (None, set_events (delete k (events w)) (record (OpRemoveId k) w)).
Proof. intros Hx. unfold coll_RemoveId. simp_rec. rewrite Hx. reflexivity. Qed.

(** [Done] on an event in locked form, as a function of the two store
    calls it ends with. *)
Lemma Done_locked_data (e : Event) (evtErr : option error) (w : World) :
  dbConnErr w = None ->
  ID_ObjId (ID (data e)) = "" ->
  data (Done e evtErr w).1.2
  = set_ID (mkEventID zeroTarget (UniqueID (data e)))
           (closedData e evtErr (clock w) (rereadOther e w)).
Proof.
  intros Hconn Hobj. unfold Done. rewrite (done_locked e evtErr w Hconn Hobj).
  cbv zeta. destruct (coll_Insert _ _) as [ierr wa].
  destruct (coll_RemoveId _ wa) as [rerr wb]. reflexivity.
Qed.

(** X16. What [Done] archives.  For an event in locked form whose target
    holds a document, and whose unique id is not stored yet, [Done] returns
    nil and the document stored under the unique id has the
    [otherCustomData] of the document that was stored under the target, not
    the one in memory; its log is the log buffer, to which [Write] appends
    what it is given, returning the number of bytes; its start custom data
    is the event's and its end custom data is empty. *)
Theorem Done_archives_log_and_other (e : Event) (a b : string) (evtErr : option error)
    (w : World) (t : Target) (row : eventData) :
  dbConnErr w = None ->
  ID (data e) = mkEventID t "" ->
  events w !! KTarget t = Some row ->
  UniqueID (data e) <> "" ->
  events w !! KObjId (UniqueID (data e)) = None ->
  let e1 := Event_Write e a in
  let e2 := Event_Write e1.2 b in
  let r := Done e2.2 evtErr w in
  e1.1 = (Z.of_nat (String.length a), None)
  /\ r.1.1 = None
  /\ events r.2 !! KObjId (UniqueID (data e)) = Some (data r.1.2)
  /\ OtherCustomData (data r.1.2) = OtherCustomData row
  /\ Log (data r.1.2) = (logBuffer e +:+ a) +:+ b
  /\ StartCustomData (data r.1.2) = StartCustomData (data e)
  /\ EndCustomData (data r.1.2) = Raw_zero.
Proof.
  intros Hconn Hid Hrow Huid Hfree e1 e2 r.
  split; [reflexivity |].
  assert (Hid2 : ID (data e2.2) = mkEventID t "") by exact Hid.
  destruct (Done_locked_result e2.2 evtErr w t Hconn Hid2)
    as (_ & _ & _ & _ & _ & Hstored & _).
  destruct (Hstored Huid Hfree) as (Hnil & Harch).
  assert (Hobj : ID_ObjId (ID (data e2.2)) = "") by (rewrite Hid2; reflexivity).
  pose proof (Done_locked_data e2.2 evtErr w Hconn Hobj) as Hdata.
  change (UniqueID (data e2.2)) with (UniqueID (data e)) in *.
  fold r in Hnil, Harch, Hdata.
  split; [exact Hnil |]. split; [exact Harch |].
  rewrite Hdata. unfold closedData, rereadOther. simp_rec.
  change (ID (data e2.2)) with (ID (data e)). rewrite Hid.
  cbn [key_of ID_ObjId ID_Target String.length Nat.eqb negb].
  rewrite Hrow. repeat split.
Qed.

(** X17. [Done] on an event in locked form removes the document stored
    under its target without looking whose it is.  When the event's unique
    id is already stored (a later creator found the event expired and
    archived it), [Done] returns the duplicate-key error and the only change
    to the collection is that the document held under the target, the later
    creator's, is gone. *)
Theorem Done_removes_the_holder (e : Event) (evtErr : option error) (w : World)
    (t : Target) (holder archived : eventData) :
  dbConnErr w = None ->
  ID (data e) = mkEventID t "" ->
  UniqueID (data e) <> "" ->
  events w !! KObjId (UniqueID (data e)) = Some archived ->
  events w !! KTarget t = Some holder ->
  (Done e evtErr w).1.1 = Some mgoDuplicateKey
  /\ events (Done e evtErr w).2 = delete (KTarget t) (events w).
Proof.
  intros Hconn Hid Huid Harch Hheld.
  unfold Done.
  rewrite (done_locked e evtErr w Hconn) by (rewrite Hid; reflexivity).
  cbv zeta. rewrite Hid. cbn [ID_Target].
  set (d := set_ID _ _).
  assert (Hkd : key_of (ID d) = KObjId (UniqueID (data e))).
  { subst d. simp_rec. apply key_of_objid. exact Huid. }
  rewrite (coll_Insert_dup d archived) by (rewrite Hkd; simp_rec; exact Harch).
  rewrite (coll_RemoveId_eq (KTarget t) holder) by (simp_rec; exact Hheld).
  split; reflexivity.
Qed.


(** X18. A cancellation from request to archive.  On a cancelable running
    event in locked form, [TryCancel], then [AckCancel] some time later on
    the event, then [Done] with a nil error on the event as [AckCancel] left
    it: [Done] returns nil, the target is free, and the document stored
    under the unique id is not running, has the error
    [canceled by user request], and keeps the owner, the reason and the
    times of the cancellation. *)
Theorem cancel_then_Done (e : Event) (reason owner : string) (dt : Z) (w : World)
    (t : Target) (row : eventData) :
  Cancelable (data e) = true -> Running (data e) = true ->
  dbConnErr w = None ->
  ID (data e) = mkEventID t "" ->
  events w !! KTarget t = Some row ->
  CI_Asked (CancelInfo row) = false ->
  UniqueID row <> "" ->
  events w !! KObjId (UniqueID row) = None ->
  let asked := TryCancel e reason owner w in
  let acked := AckCancel e (advance dt asked.2) in
  let r := Done acked.1.2 None acked.2 in
  asked.1.1 = None /\ acked.1.1.1 = true
  /\ r.1.1 = None
  /\ events r.2 !! KTarget t = None
  /\ events r.2 !! KObjId (UniqueID row) = Some (data r.1.2)
  /\ Error_ (data r.1.2) = "canceled by user request"
  /\ CancelInfo (data r.1.2) = mkCancelInfo owner (clock w) (clock w + dt) reason true true
  /\ Running (data r.1.2) = false.
Proof.
  intros Hc Hr Hconn Hid Hrow Hasked Huid Hfree asked acked r.
  assert (Hkey : key_of (ID (data e)) = KTarget t) by (rewrite Hid; reflexivity).
  rewrite <- Hkey in Hrow.
  assert (Hasked_eq : asked
                      = (None,
                         set_data (set_ID (id_of_key (key_of (ID (data e))))
                                     (set_CancelInfo
                                        (mkCancelInfo owner (clock w) 0 reason true false) row)) e,
                         set_events
                           (<[key_of (ID (data e))
                              := set_CancelInfo
                                   (mkCancelInfo owner (clock w) 0 reason true false) row]>
                              (events w)) w)).
  { subst asked. rewrite (TryCancel_found e reason owner w row Hc Hr Hconn Hrow), Hasked.
    reflexivity. }
  set (row1 := set_CancelInfo (mkCancelInfo owner (clock w) 0 reason true false) row) in *.
  set (row2 := set_CancelInfo (mkCancelInfo owner (clock w) (clock w + dt) reason true true) row).
  assert (Hacked_eq : acked
                      = (true, None,
                         set_data (set_ID (id_of_key (key_of (ID (data e)))) row2) e,
                         set_events (<[key_of (ID (data e)) := row2]>
                                       (<[key_of (ID (data e)) := row1]> (events w)))
                                    (advance dt w))).
  { subst acked. rewrite Hasked_eq. simp_rec.
    rewrite (AckCancel_found e _ row1 Hc Hr); simp_rec;
      [| exact Hconn | apply lookup_insert_eq].
    subst row1 row2. destruct row. reflexivity. }
  split; [rewrite Hasked_eq; reflexivity |].
  split; [rewrite Hacked_eq; reflexivity |].
  subst r. rewrite Hacked_eq. simp_rec. rewrite Hkey. cbn [id_of_key].
  set (e2 := set_data _ e). set (w2 := set_events _ _).
  assert (Hid2 : ID (data e2) = mkEventID t "") by reflexivity.
  assert (Hdb2 : dbConnErr w2 = None) by exact Hconn.
  assert (Huid2 : UniqueID (data e2) = UniqueID row) by reflexivity.
  destruct (Done_locked_result e2 None w2 t Hdb2 Hid2)
    as (Herr & Hrun & _ & _ & Hslot & Hstored & _).
  rewrite Huid2 in Hstored.
  destruct Hstored as (Hnil & Harch); [exact Huid | |].
  { subst w2. simp_rec. rewrite !lookup_insert_ne by discriminate. exact Hfree. }
  pose proof (Done_locked_data e2 None w2 Hdb2) as Hdata.
  rewrite Hid2 in Hdata. specialize (Hdata eq_refl).
  split; [exact Hnil |]. split; [exact Hslot |]. split; [exact Harch |].
  split; [rewrite Herr; reflexivity |].
  split; [rewrite Hdata; reflexivity |]. exact Hrun.
Qed.

(** ** Raw insertion *)

(** X19. [RawInsert] checks the three custom data in the order start,
    other, end and returns the first refusal of the marshal gate without
    calling the store.  When the three pass and no document is stored under
    the event's unique id, it returns nil and adds one document, stored
    under the unique id and never under the target, holding the three
    marshalled values; when a document is stored there already, it returns
    the duplicate-key error and the collection is unchanged. *)
Theorem RawInsert_stores_under_unique_id (e : Event) (start other end_ : GoValue)
    (w : World) :
  dbConnErr w = None ->
  UniqueID (data e) <> "" ->
  let r := RawInsert e start other end_ w in
  let uid := UniqueID (data e) in
  match (makeBSONRaw start).2, (makeBSONRaw other).2, (makeBSONRaw end_).2 with
  | Some err, _, _ => r.1.1 = Some err /\ r.2 = w
  | None, Some err, _ => r.1.1 = Some err /\ r.2 = w
  | None, None, Some err => r.1.1 = Some err /\ r.2 = w
  | None, None, None =>
      ID (data r.1.2) = mkEventID zeroTarget uid
      /\ StartCustomData (data r.1.2) = (makeBSONRaw start).1
      /\ OtherCustomData (data r.1.2) = (makeBSONRaw other).1
      /\ EndCustomData (data r.1.2) = (makeBSONRaw end_).1
      /\ match events w !! KObjId uid with
         | None => r.1.1 = None
                   /\ events r.2 = <[KObjId uid := data r.1.2]> (events w)
         | Some _ => r.1.1 = Some mgoDuplicateKey /\ events r.2 = events w
         end
  end.
Proof.
  intros Hconn Huid r uid. subst r. unfold RawInsert.
  destruct (makeBSONRaw start) as [raw1 [err1 |]]; [split; reflexivity |].
  destruct (makeBSONRaw other) as [raw2 [err2 |]]; [split; reflexivity |].
  destruct (makeBSONRaw end_) as [raw3 [err3 |]]; [split; reflexivity |].
  rewrite Hconn. simp_rec.
  set (d := set_EndCustomData _ _).
  assert (Hkd : key_of (ID d) = KObjId uid).
  { subst d. simp_rec. apply key_of_objid. exact Huid. }
  unfold coll_Insert. rewrite Hkd. simp_rec.
  destruct (events w !! KObjId uid); simp_rec; repeat split.
Qed.


(** ** Removal marks *)

(** X20. [MarkAsRemoved], at a time that is not the zero time: it returns
    nil; afterwards every stored event of the target has a remove date; an
    event of another target, or one that had a remove date, is stored as it
    was; no document appears or disappears; and a second call, at whatever
    later time, changes nothing, so the first date stays. *)
Theorem MarkAsRemoved_marks_once (target : Target) (dt : Z) (w : World) :
  dbConnErr w = None ->
  clock w <> 0 ->
  target <> zeroTarget ->
  let r := MarkAsRemoved target w in
  r.1 = None
  /\ (forall k d', events r.2 !! k = Some d' -> Target_ d' = target -> RemoveDate d' <> 0)
  /\ (forall k d, events w !! k = Some d ->
                  Target_ d <> target \/ RemoveDate d <> 0 -> events r.2 !! k = Some d)
  /\ (forall k d, events w !! k = Some d -> RemoveDate d = 0 -> Target_ d = target ->
                  events r.2 !! k = Some (set_RemoveDate (clock w) d))
  /\ (forall k, events r.2 !! k = None <-> events w !! k = None)
  /\ events (MarkAsRemoved target (advance dt r.2)).2 = events r.2.
Proof.
  intros Hconn Hclock Htarget r. subst r. unfold MarkAsRemoved.
  rewrite Hconn. simp_rec. rewrite Hconn. simp_rec.
  split; [reflexivity |]. split; [| split; [| split; [| split]]].
  - intros k d' Hd' Ht. rewrite lookup_fmap in Hd'.
    destruct (events w !! k) as [d |]; [| discriminate].
    simpl in Hd'. injection Hd' as <-.
    destruct (bool_decide (Target_ d = target) && negb (bool_decide (Target_ d = zeroTarget))
              && (RemoveDate d =? 0)) eqn:Hm.
    + simp_rec. exact Hclock.
    + rewrite bool_decide_eq_true_2 in Hm by exact Ht.
      rewrite bool_decide_eq_false_2 in Hm by congruence.
      simpl in Hm. apply Z.eqb_neq. exact Hm.
  - intros k d Hd Hkeep. rewrite lookup_fmap, Hd. simpl. f_equal.
    destruct Hkeep as [Hne | Hne].
    + rewrite bool_decide_eq_false_2 by exact Hne. reflexivity.
    + apply Z.eqb_neq in Hne. rewrite Hne, andb_false_r. reflexivity.
  - intros k d Hd Hzero Ht. rewrite lookup_fmap, Hd. simpl. f_equal.
    rewrite bool_decide_eq_true_2 by exact Ht.
    rewrite bool_decide_eq_false_2 by congruence.
    rewrite Hzero. reflexivity.
  - intros k. rewrite lookup_fmap. destruct (events w !! k); simpl; split; congruence.
  - apply map_eq. intros k. rewrite !lookup_fmap.
    destruct (events w !! k) as [d |]; [| reflexivity]. simpl. f_equal.
    destruct (bool_decide (Target_ d = target) && negb (bool_decide (Target_ d = zeroTarget))
              && (RemoveDate d =? 0)) eqn:Hm.
    + simp_rec. apply Z.eqb_neq in Hclock. rewrite Hclock, andb_false_r. reflexivity.
    + rewrite Hm. reflexivity.
Qed.

(** ** Forms *)

Lemma formEntry_inj (k k' : string) (v v' : list string) :
  formEntry k v = formEntry k' v' -> k = k'.
Proof. unfold formEntry. intros Heq. injection Heq as Hk _. exact Hk. Qed.

(** X21. [FormToCustomData] gives one map per key of the form and no
    other: the map of a key holds the key under [name] and, under [value],
    the value itself when the key has exactly one and the slice of its
    values otherwise, the empty slice included. *)
Theorem FormToCustomData_entries (form : gmap string (list string)) :
  length (FormToCustomData form) = size form
  /\ NoDup (FormToCustomData form)
  /\ (forall entry, entry ∈ FormToCustomData form
                    <-> exists k v, form !! k = Some v
                                    /\ entry = GoMap [("name", GoString k);
                                                      ("value", formValue v)])
  /\ (forall x, formValue [x] = GoString x)
  /\ formValue [] = GoSlice []
  /\ (forall x y v, formValue (x :: y :: v) = GoSlice (GoString <$> x :: y :: v)).
Proof.
  unfold FormToCustomData. split; [| split; [| split]].
  - rewrite length_fmap. apply length_map_to_list.
  - apply NoDup_fmap_2_strong; [| apply NoDup_map_to_list].
    intros [k v] [k' v'] Hin Hin' Heq. cbn [fst snd] in Heq.
    pose proof (formEntry_inj _ _ _ _ Heq) as ->.
    apply elem_of_map_to_list in Hin, Hin'. congruence.
  - intros entry. rewrite list_elem_of_fmap. split.
    + intros [[k v] [-> Hin]]. apply elem_of_map_to_list in Hin.
      exists k, v. split; [exact Hin | reflexivity].
    + intros (k & v & Hkv & ->). exists (k, v).
      split; [reflexivity | apply elem_of_map_to_list; exact Hkv].
  - repeat split.
Qed.

(** ** The throttling registry *)

Lemma append_nonempty_ne (s x : string) : x <> "" -> s +:+ x <> s.
Proof.
  intros Hx. induction s as [| c s IH]; simpl; [exact Hx |].
  intros Heq. injection Heq as Heq. exact (IH Heq).
Qed.

(** X22. A registered spec and the lookup.  For a target of the spec's
    type: a spec with a kind name is found for that kind name and leaves
    the lookup of every other kind name as it was; a spec without kind name
    is found for every kind name that has no spec of its own. *)
Theorem SetThrottling_then_getThrottling (spec : ThrottlingSpec) (w : World)
    (t : Target) (k : Kind) :
  Target_Type t = Spec_TargetType spec ->
  let w' := SetThrottling spec w in
  (Spec_KindName spec <> "" -> Kind_Name k = Spec_KindName spec ->
   getThrottling t k w' = Some spec)
  /\ (Spec_KindName spec <> "" -> Kind_Name k <> Spec_KindName spec ->
      getThrottling t k w' = getThrottling t k w)
  /\ (Spec_KindName spec = "" ->
      getThrottling t k w'
      = match throttlingInfo w !! (Target_Type t +:+ "_" +:+ Kind_Name k) with
        | Some s => Some s
        | None => Some spec
        end).
Proof.
  intros Ht w'. subst w'. unfold getThrottling, SetThrottling. simp_rec.
  rewrite <- Ht. split; [| split].
  - intros Hkn Hk. destruct (String.eqb_spec (Spec_KindName spec) ""); [contradiction |].
    cbn [nonEmpty negb]. unfold nonEmpty.
    destruct (String.eqb_spec (Spec_KindName spec) ""); [contradiction |].
    cbn [negb]. rewrite Hk, lookup_insert_eq. reflexivity.
  - intros Hkn Hk. unfold nonEmpty.
    destruct (String.eqb_spec (Spec_KindName spec) ""); [contradiction |].
    cbn [negb].
    rewrite lookup_insert_ne.
    + rewrite lookup_insert_ne; [reflexivity |].
      apply append_nonempty_ne. discriminate.
    + intros Heq. apply (inj (String.app (Target_Type t))) in Heq.
      simpl in Heq. injection Heq as Heq. symmetry in Heq. contradiction.
  - intros Hkn. unfold nonEmpty. rewrite Hkn. cbn [String.eqb negb].
    rewrite lookup_insert_ne
      by (intros Heq; symmetry in Heq; revert Heq; apply append_nonempty_ne; discriminate).
    rewrite lookup_insert_eq.
    destruct (throttlingInfo w !! (Target_Type t +:+ "_" +:+ Kind_Name k)); reflexivity.
Qed.


(** ** Lookup by unique id *)

Lemma GetByID_found (id : ObjectId) (w : World) (k : Key) (row : eventData) :
  dbConnErr w = None ->
  events w !! k = Some row ->
  UniqueID row = id ->
  (forall k' row', events w !! k' = Some row' -> UniqueID row' = id -> k' = k) ->
  GetByID id w = (Some (mkEvent (set_ID (id_of_key k) row) ""), None).
Proof.
  intros Hconn Hrow Hid Huniq. unfold GetByID. rewrite Hconn.
  destruct (list_find _ _) as [[i [k' row']] |] eqn:Hfind.
  - apply list_find_Some in Hfind as (Hl & HP & _). cbn [snd] in HP.
    apply list_elem_of_lookup_2, elem_of_map_to_list in Hl.
    pose proof (Huniq k' row' Hl HP) as ->.
    rewrite Hrow in Hl. injection Hl as <-. reflexivity.
  - apply list_find_None in Hfind. rewrite Forall_forall in Hfind.
    exfalso. apply (Hfind (k, row)); [| exact Hid].
    apply elem_of_map_to_list. exact Hrow.
Qed.

Lemma GetByID_missing (id : ObjectId) (w : World) :
  dbConnErr w = None ->
  (forall k row, events w !! k = Some row -> UniqueID row <> id) ->
  GetByID id w = (None, Some ErrEventNotFound).
Proof.
  intros Hconn Hnone. unfold GetByID. rewrite Hconn.
  destruct (list_find _ _) as [[i [k' row']] |] eqn:Hfind; [| reflexivity].
  apply list_find_Some in Hfind as (Hl & HP & _). cbn [snd] in HP.
  apply list_elem_of_lookup_2, elem_of_map_to_list in Hl.
  exfalso. exact (Hnone k' row' Hl HP).
Qed.

Lemma set_ID_same (d : eventData) : set_ID (ID d) d = d.
Proof. destruct d; reflexivity. Qed.

(** X23. The unique id is a stable handle.  For an event created with the
    lock whose unique id no other stored document has, [GetByID] returns the
    event while it runs and, after [Done], the archived event that [Done]
    left: the same unique id finds the event under both forms of its
    [_id]. *)
Theorem GetByID_before_and_after_Done (fuel : nat) (opts : Opts) (w w' : World)
    (evt : Event) (dt : Z) :
  newEvt fuel (Some opts) w = Some (Some evt, None, w') ->
  O_DisableLock opts = false ->
  UniqueID (data evt) <> "" ->
  events w' !! KObjId (UniqueID (data evt)) = None ->
  (forall k row, events w' !! k = Some row -> UniqueID row = UniqueID (data evt) ->
                 k = KTarget (O_Target opts)) ->
  let r := Done evt None (advance dt w') in
  GetByID (UniqueID (data evt)) w' = (Some evt, None)
  /\ GetByID (UniqueID (data evt)) r.2 = (Some r.1.2, None)
  /\ ID (data r.1.2) = mkEventID zeroTarget (UniqueID (data evt))
  /\ Running (data r.1.2) = false
  /\ (forall id, (forall k row, events w' !! k = Some row -> UniqueID row <> id) ->
                 GetByID id w' = (None, Some ErrEventNotFound)).
Proof.
  intros Hnew Hlock Huid Hfree Huniq r.
  cut ((GetByID (UniqueID (data evt)) w' = (Some evt, None)
        /\ GetByID (UniqueID (data evt)) r.2 = (Some r.1.2, None)
        /\ ID (data r.1.2) = mkEventID zeroTarget (UniqueID (data evt))
        /\ Running (data r.1.2) = false)
       /\ dbConnErr w' = None).
  { intros ((H1 & H2 & H3 & H4) & Hdbw). repeat (split; [assumption |]).
    intros id Hnone. apply GetByID_missing; assumption. }
  destruct (newEvt_success_inv _ _ _ _ _ _ Hnew)
    as (k & raw & Hopts & Hkind & Hconn & Hthr & Hraw & Hevt & Hloop).
  destruct (insertLoop_success _ _ _ _ _ _ _ _ _ _ Hloop) as (_ & _ & Hstored & _).
  destruct (insertLoop_others_kept _ _ _ _ _ _ _ _ _ Hloop) as (_ & Hdb & _).
  destruct (checkThrottling_state (O_Target opts) k w) as (_ & _ & Hd1 & _).
  assert (Hdb' : dbConnErr w' = None) by (simp_rec; congruence).
  assert (Hid : ID (data evt) = mkEventID (O_Target opts) "").
  { rewrite Hevt. unfold initialEvent. rewrite Hlock. reflexivity. }
  assert (Hlog : logBuffer evt = "") by (rewrite Hevt; reflexivity).
  rewrite Hid in Hstored.
  cbn [key_of ID_ObjId ID_Target String.length Nat.eqb negb] in Hstored.
  split; [| exact Hdb'].
  split.
  - rewrite (GetByID_found _ w' (KTarget (O_Target opts)) (data evt) Hdb' Hstored eq_refl Huniq).
    cbn [id_of_key]. rewrite <- Hid, set_ID_same. destruct evt as [d l].
    simpl in Hlog. subst l. reflexivity.
  - destruct (Done_locked_result evt None (advance dt w') (O_Target opts) Hdb' Hid)
      as (_ & Hrun & _ & Hid' & Hslot & Hstored' & _).
    destruct (Hstored' Huid Hfree) as (_ & Harch).
    destruct (done_frame evt None GoNil false (advance dt w')) as (_ & Hdbr & _ & _ & Hframe).
    change (done evt None GoNil false (advance dt w')) with r in Hdbr, Hframe.
    fold r in Hrun, Hid', Hslot, Harch.
    split; [| split; [exact Hid' | exact Hrun]].
    rewrite (GetByID_found _ r.2 (KObjId (UniqueID (data evt))) (data r.1.2)).
    + cbn [id_of_key]. rewrite <- Hid', set_ID_same.
      assert (Hlog' : logBuffer r.1.2 = "").
      { subst r. unfold Done.
        rewrite (done_locked evt None (advance dt w') Hdb') by (rewrite Hid; reflexivity).
        cbv zeta. destruct (coll_Insert _ _) as [ierr wa].
        destruct (coll_RemoveId _ wa) as [rerr wb]. exact Hlog. }
      destruct r.1.2 as [d l]. simpl in Hlog'. subst l. reflexivity.
    + rewrite Hdbr. exact Hdb'.
    + exact Harch.
    + pose proof (Done_locked_data evt None (advance dt w') Hdb') as Hdata.
      rewrite Hid in Hdata. specialize (Hdata eq_refl). fold r in Hdata.
      rewrite Hdata. reflexivity.
    + intros k' row' Hk' Huid'.
      destruct (decide (k' = KObjId (UniqueID (data evt)))) as [-> | Hne1]; [reflexivity |].
      destruct (decide (k' = KTarget (O_Target opts))) as [-> | Hne2].
      { rewrite Hslot in Hk'. discriminate. }
      exfalso. rewrite Hframe in Hk'.
      * simp_rec. apply Hne2. eapply Huniq; eassumption.
      * rewrite Hid. exact Hne2.
      * rewrite (key_of_objid _ _ Huid). exact Hne1.
Qed.


(** ** Migration *)

Lemma migrateLoop_app (wrap : string -> Event -> error -> error)
    (cb : Event -> Event * option error) (l1 l2 : list eventData) (w : World) :
  migrateLoop wrap cb (l1 ++ l2) w
  = match migrateLoop wrap cb l1 w with
    | (Some err, w1) => (Some err, w1)
    | (None, w1) => migrateLoop wrap cb l2 w1
    end.
Proof.
  revert w. induction l1 as [| d l1 IH]; intros w; [reflexivity |].
  cbn [app migrateLoop].
  destruct (cb (mkEvent d "")) as [evt [err |]]; [reflexivity |].
  destruct (coll_UpdateId _ _ w) as [[err |] w1]; [reflexivity |].
  apply IH.
Qed.

Lemma migrateLoop_succeeds (wrap : string -> Event -> error -> error)
    (cb : Event -> Event * option error) (yielded : list eventData) :
  forall w : World,
    Forall (fun d => (cb (mkEvent d "")).2 = None
                     /\ ID (data (cb (mkEvent d "")).1) = ID d
                     /\ is_Some (events w !! key_of (ID d))) yielded ->
    NoDup ((fun d => key_of (ID d)) <$> yielded) ->
    (migrateLoop wrap cb yielded w).1 = None
    /\ dbConnErr (migrateLoop wrap cb yielded w).2 = dbConnErr w
    /\ (forall d, d ∈ yielded ->
                  events (migrateLoop wrap cb yielded w).2 !! key_of (ID d)
                  = Some (data (cb (mkEvent d "")).1))
    /\ (forall k, k ∉ (fun d => key_of (ID d)) <$> yielded ->
                  events (migrateLoop wrap cb yielded w).2 !! k = events w !! k).
Proof.
  induction yielded as [| d rest IH]; intros w Hall Hnodup.
  - repeat split. intros d Hd. apply elem_of_nil in Hd. contradiction.
  - apply Forall_cons in Hall as ((Hcb & Hid & [x Hx]) & Hrest).
    apply NoDup_cons in Hnodup as (Hnotin & Hnodup).
    cbn [migrateLoop].
    destruct (cb (mkEvent d "")) as [evt err] eqn:Hcbd. cbn [fst snd] in Hcb, Hid.
    subst err. rewrite Hid.
    unfold coll_UpdateId. simp_rec. rewrite Hx.
    set (w1 := set_events _ _).
    assert (Hrest1 : Forall (fun d0 => (cb (mkEvent d0 "")).2 = None
                                       /\ ID (data (cb (mkEvent d0 "")).1) = ID d0
                                       /\ is_Some (events w1 !! key_of (ID d0))) rest).
    { eapply Forall_impl; [exact Hrest |]. intros d0 (H1 & H2 & H3).
      split; [exact H1 |]. split; [exact H2 |]. subst w1. simp_rec.
      rewrite lookup_insert. case_decide; [eauto | exact H3]. }
    destruct (IH w1 Hrest1 Hnodup) as (Hnil & Hdb & Hin & Hout).
    split; [exact Hnil |]. split; [exact Hdb |]. split.
    + intros d0 Hd0. apply elem_of_cons in Hd0 as [-> | Hd0].
      * rewrite Hout by exact Hnotin. subst w1. simp_rec.
        rewrite lookup_insert_eq, Hcbd. reflexivity.
      * apply Hin. exact Hd0.
    + intros k Hk. cbn [fmap list_fmap] in Hk. apply not_elem_of_cons in Hk as (Hne & Hk).
      rewrite Hout by exact Hk. subst w1. simp_rec.
      apply lookup_insert_ne. congruence.
Qed.

(** X24. [Migrate] applies the callback to what the cursor yields.  When
    the callback succeeds on every yielded event and keeps its id, and the
    yielded events are stored, under ids that differ, [Migrate] returns what
    closing the cursor returns, every yielded event is stored as the
    callback left it, and no other document is touched.  When the callback
    fails on an event, [Migrate] returns that error wrapped and stops: the
    events yielded before are migrated and nothing is written for that
    event or after it. *)
Theorem Migrate_applies_callback (wrap : string -> Event -> error -> error)
    (cb : Event -> Event * option error) (yielded : list eventData)
    (closeErr : option error) (w : World) :
  dbConnErr w = None ->
  Forall (fun d => (cb (mkEvent d "")).2 = None
                   /\ ID (data (cb (mkEvent d "")).1) = ID d
                   /\ is_Some (events w !! key_of (ID d))) yielded ->
  NoDup ((fun d => key_of (ID d)) <$> yielded) ->
  let r := Migrate wrap yielded closeErr cb w in
  r.1 = closeErr
  /\ (forall d, d ∈ yielded ->
                events r.2 !! key_of (ID d) = Some (data (cb (mkEvent d "")).1))
  /\ (forall k, k ∉ (fun d => key_of (ID d)) <$> yielded ->
                events r.2 !! k = events w !! k)
  /\ (forall failing rest evt err,
        cb (mkEvent failing "") = (evt, Some err) ->
        Migrate wrap (yielded ++ failing :: rest) closeErr cb w
        = (Some (wrap "unable to migrate %#v" evt err), r.2)).
Proof.
  intros Hconn Hall Hnodup r.
  destruct (migrateLoop_succeeds wrap cb yielded w Hall Hnodup) as (Hnil & _ & Hin & Hout).
  assert (Hr : r = (closeErr, (migrateLoop wrap cb yielded w).2)).
  { subst r. unfold Migrate. rewrite Hconn.
    destruct (migrateLoop wrap cb yielded w) as [err w1]. cbn [fst] in Hnil.
    subst err. reflexivity. }
  rewrite Hr. cbn [fst snd].
  split; [reflexivity |]. split; [exact Hin |]. split; [exact Hout |].
  intros failing rest evt err Hfail. unfold Migrate. rewrite Hconn, migrateLoop_app.
  destruct (migrateLoop wrap cb yielded w) as [err0 w1]. cbn [fst snd] in *.
  subst err0. cbn [migrateLoop]. rewrite Hfail. reflexivity.
Qed.


(** ** The two entry points *)

(** X25. An event returned by [New] has a kind of type [permission], named
    by the full name of the scheme given, and the owner of the token: an
    application for an application token, a user otherwise.  Without token
    the raw owner is taken when it has both a name and a type; a raw owner
    with only one of them passes the check of [New] and gives an internal
    owner without name. *)
Theorem New_kind_and_owner (fuel : nat) (opts : Opts) (w w' : World) (evt : Event)
    (rerr : option error) :
  New fuel (Some opts) w = Some (Some evt, rerr, w') ->
  exists scheme,
    O_Kind opts = Some scheme
    /\ Kind_ (data evt) = mkKind KindTypePermission (FullName scheme)
    /\ match O_Owner opts with
       | Some token =>
           Owner_ (data evt)
           = if IsAppToken token then mkOwner OwnerTypeApp (GetAppName token)
             else mkOwner OwnerTypeUser (GetUserName token)
       | None =>
           (Owner_Name (O_RawOwner opts) <> "" \/ Owner_Type (O_RawOwner opts) <> "")
           /\ Owner_ (data evt)
              = if nonEmpty (Owner_Name (O_RawOwner opts))
                   && nonEmpty (Owner_Type (O_RawOwner opts))
                then O_RawOwner opts else mkOwner OwnerTypeInternal ""
       end.
Proof.
  intros Hnew. unfold New in Hnew.
  destruct (negb (is_Some_bool (O_Owner opts))
            && String.eqb (Owner_Name (O_RawOwner opts)) ""
            && String.eqb (Owner_Type (O_RawOwner opts)) "") eqn:Hcheck; [discriminate |].
  destruct (O_Kind opts) as [scheme |] eqn:Hk; [| discriminate].
  destruct (newEvt_success_inv _ _ _ _ _ _ Hnew)
    as (k & raw & _ & Hkind & _ & _ & _ & Hevt & _).
  unfold optsKind in Hkind. rewrite Hk in Hkind. injection Hkind as <-.
  exists scheme. split; [reflexivity |].
  rewrite Hevt. unfold initialEvent, optsOwner. simp_rec.
  split; [reflexivity |].
  destruct (O_Owner opts) as [token |]; [reflexivity |].
  split; [| reflexivity].
  cbn [is_Some_bool negb andb] in Hcheck.
  destruct (String.eqb_spec (Owner_Name (O_RawOwner opts)) ""); [| left; assumption].
  destruct (String.eqb_spec (Owner_Type (O_RawOwner opts)) ""); [discriminate |].
  right. assumption.
Qed.

(** X26. An event returned by [NewInternal] was asked without token and
    without scheme; its kind has the type [internal] and the non-empty
    internal kind of the options as its name, and its owner is internal
    and without name unless the raw owner has both a name and a type. *)
Theorem NewInternal_kind_and_owner (fuel : nat) (opts : Opts) (w w' : World)
    (evt : Event) (rerr : option error) :
  NewInternal fuel (Some opts) w = Some (Some evt, rerr, w') ->
  O_Owner opts = None /\ O_Kind opts = None /\ O_InternalKind opts <> ""
  /\ Kind_ (data evt) = mkKind KindTypeInternal (O_InternalKind opts)
  /\ Owner_ (data evt)
     = (if nonEmpty (Owner_Name (O_RawOwner opts))
           && nonEmpty (Owner_Type (O_RawOwner opts))
        then O_RawOwner opts else mkOwner OwnerTypeInternal "").
Proof.
  intros Hnew. unfold NewInternal in Hnew.
  destruct (O_Owner opts) as [token |] eqn:Ho; [discriminate |].
  destruct (O_Kind opts) as [scheme |] eqn:Hk; [discriminate |].
  destruct (String.eqb_spec (O_InternalKind opts) "") as [| Hne]; [discriminate |].
  destruct (newEvt_success_inv _ _ _ _ _ _ Hnew)
    as (k & raw & _ & Hkind & _ & _ & _ & Hevt & _).
  unfold optsKind in Hkind. rewrite Hk in Hkind.
  destruct (String.eqb_spec (O_InternalKind opts) ""); [contradiction |].
  injection Hkind as <-.
  repeat (split; [reflexivity || assumption |]).
  rewrite Hevt. unfold initialEvent, optsOwner. simp_rec. rewrite Ho.
  split; reflexivity.
Qed.

End MoreProperties.

Lemma toQuery_raw_overrides_witness :
  exists query,
    toQuery (withRaw (Some {[ "removedate" := BM {[ "$exists" := BBool true ]} ]})
                     sampleFilter) = (Some query, None)
    /\ query !! "removedate" = Some (BM {[ "$exists" := BBool true ]}).
Proof.
  eexists. split; [vm_compute; reflexivity |].
  destruct (toQuery_raw_overrides sampleFilter
              {[ "removedate" := BM {[ "$exists" := BBool true ]} ]}
              {[ "removedate" := BM {[ "$exists" := BBool true ]} ]})
    as (query0 & _ & _ & Hraw & _).
  - vm_compute. reflexivity.
  - apply Hraw. vm_compute. reflexivity.
Defined.

Lemma List_limit_witness :
  exists query limit,
    toQuery (PruneUserValues sampleFilter) = (Some query, None)
    /\ 1 <= limit <= 100.
Proof.
  destruct (@List_limit sampleCollaborators sampleFilter emptyWorld)
    as ((query & limit & Hq & Hlimit & _) & _).
  - reflexivity.
  - exists query, limit. split; [exact Hq | exact Hlimit].
Defined.


Lemma AckCancel_follows_ask_witness :
  AckCancel runningEvent liveWorld = (false, None, runningEvent, liveWorld)
  /\ (AckCancel runningEvent
                (advance 1000000000 (TryCancel runningEvent "stop" "alice" liveWorld).2)).1.1.1
     = true.
Proof.
  destruct (AckCancel_follows_ask runningEvent "stop" "alice" 1000000000 liveWorld
              (data runningEvent))
    as (Hbefore & Hafter & _).
  - reflexivity.
  - reflexivity.
  - reflexivity.
  - vm_compute. reflexivity.
  - reflexivity.
  - split; [exact Hbefore | exact Hafter].
Defined.

Lemma cancel_keeps_canceled_implies_asked_witness :
  exists d,
    events (AckCancel runningEvent
                      (TryCancel runningEvent "stop" "alice" liveWorld).2).2
           !! KTarget myapp = Some d
    /\ CI_Canceled (CancelInfo d) = true /\ CI_Asked (CancelInfo d) = true.
Proof.
  eexists. split; [vm_compute; reflexivity |]. split; [reflexivity |].
  apply (cancel_keeps_canceled_implies_asked runningEvent "" ""
           (TryCancel runningEvent "stop" "alice" liveWorld).2)
    with (k := KTarget myapp).
  - intros k d Hd Hc.
    assert (Hev : events (TryCancel runningEvent "stop" "alice" liveWorld).2
                  = {[ KTarget myapp :=
                         set_CancelInfo
                           (mkCancelInfo "alice" (clock liveWorld) 0 "stop" true false)
                           (data runningEvent) ]})
      by (vm_compute; reflexivity).
    rewrite Hev in Hd. apply lookup_singleton_Some in Hd as [_ <-]. reflexivity.
  - right. vm_compute. reflexivity.
  - reflexivity.
Defined.

Lemma newEvt_keeps_other_locks_witness :
  exists r w',
    @newEvt sampleCollaborators 3 (Some sampleOpts) twoAppsWorld = Some (r, w')
    /\ events w' !! KTarget otherapp = events twoAppsWorld !! KTarget otherapp.
Proof.
  eexists. eexists. split; [vm_compute; reflexivity |].
  eapply (@newEvt_keeps_other_locks sampleCollaborators 3 sampleOpts twoAppsWorld).
  - vm_compute. reflexivity.
  - discriminate.
  - discriminate.
Defined.

Lemma newEvt_returns_stored_event_witness :
  events createdWorld !! KTarget myapp = Some (data createdEvent)
  /\ Running (data createdEvent) = true.
Proof.
  destruct (@newEvt_returns_stored_event sampleCollaborators 3 sampleOpts emptyWorld
              createdWorld createdEvent None)
    as (_ & Hstored & Hrunning & _).
  - vm_compute. reflexivity.
  - split; [exact Hstored | exact Hrunning].
Defined.

Lemma newEvt_then_Done_witness :
  (@Done sampleCollaborators createdEvent None (advance 5000000000 createdWorld)).1.1 = None
  /\ events (@Done sampleCollaborators createdEvent None
                   (advance 5000000000 createdWorld)).2 !! KTarget myapp = None.
Proof.
  destruct (@newEvt_then_Done sampleCollaborators 3 sampleOpts emptyWorld createdWorld
              createdEvent 5000000000)
    as (_ & Hnil & Hslot & _).
  - vm_compute. reflexivity.
  - reflexivity.
  - discriminate.
  - vm_compute. reflexivity.
  - split; [exact Hnil | exact Hslot].
Defined.

Lemma newEvt_then_Abort_witness :
  events (@Abort sampleCollaborators createdEvent createdWorld).2 = events emptyWorld.
Proof.
  destruct (@newEvt_then_Abort sampleCollaborators 3 sampleOpts emptyWorld createdWorld
              createdEvent)
    as (_ & Hevents & _).
  - vm_compute. reflexivity.
  - reflexivity.
  - vm_compute. reflexivity.
  - exact Hevents.
Defined.

Lemma newEvt_DisableLock_witness :
  exists evt w',
    @newEvt sampleCollaborators 3 (Some unlockedOpts) liveWorld = Some (Some evt, None, w')
    /\ events w' !! KTarget myapp = events liveWorld !! KTarget myapp.
Proof.
  eexists. eexists. split; [vm_compute; reflexivity |].
  eapply (@newEvt_DisableLock sampleCollaborators 3 unlockedOpts liveWorld).
  - vm_compute. reflexivity.
  - reflexivity.
  - vm_compute. discriminate.
  - vm_compute. reflexivity.
Defined.

Lemma newEvt_blocked_witness :
  exists w' archived,
    @newEvt blockingCollaborators 3 (Some sampleOpts) emptyWorld
    = Some (None, Some (errorString "blocked by the registry"), w')
    /\ events w' !! KTarget myapp = None
    /\ events w' !! KObjId "A-object-id" = Some archived
    /\ Error_ archived = "blocked by the registry".
Proof.
  destruct (@newEvt_blocked blockingCollaborators 3 sampleOpts sampleKind Raw_zero
              emptyWorld (errorString "blocked by the registry"))
    as (w' & archived & Hnew & Hslot & Hstored & Herr & _).
  - lia.
  - reflexivity.
  - reflexivity.
  - reflexivity.
  - reflexivity.
  - reflexivity.
  - reflexivity.
  - vm_compute. reflexivity.
  - vm_compute. discriminate.
  - vm_compute. reflexivity.
  - reflexivity.
  - exists w', archived. repeat split; assumption.
Defined.

Lemma Done_archives_log_and_other_witness :
  Log (data (@Done sampleCollaborators
               (Event_Write (Event_Write runningEvent "building").2 " done").2
               None liveWorld).1.2)
  = "building done".
Proof.
  destruct (@Done_archives_log_and_other sampleCollaborators runningEvent
              "building" " done" None liveWorld myapp (data runningEvent))
    as (_ & _ & _ & _ & Hlog & _).
  - reflexivity.
  - reflexivity.
  - vm_compute. reflexivity.
  - discriminate.
  - vm_compute. reflexivity.
  - exact Hlog.
Defined.

Lemma Done_removes_the_holder_witness :
  (@Done sampleCollaborators runningEvent None takenOverWorld).1.1 = Some mgoDuplicateKey
  /\ events (@Done sampleCollaborators runningEvent None takenOverWorld).2
     = delete (KTarget myapp) (events takenOverWorld).
Proof.
  apply (@Done_removes_the_holder sampleCollaborators runningEvent None takenOverWorld myapp
           (heldEvent (mkEventID myapp "") "B-object-id"
                      (995 * 1000000000) (995 * 1000000000) false)
           (heldEvent (mkEventID zeroTarget "H-object-id") "H-object-id"
                      (600 * 1000000000) (699 * 1000000000) false)).
  - reflexivity.
  - reflexivity.
  - discriminate.
  - vm_compute. reflexivity.
  - vm_compute. reflexivity.
Defined.

Lemma cancel_then_Done_witness :
  Error_ (data (@Done sampleCollaborators
                  (AckCancel runningEvent
                     (advance 1000000000
                        (TryCancel runningEvent "stop" "alice" liveWorld).2)).1.2
                  None
                  (AckCancel runningEvent
                     (advance 1000000000
                        (TryCancel runningEvent "stop" "alice" liveWorld).2)).2).1.2)
  = "canceled by user request".
Proof.
  destruct (@cancel_then_Done sampleCollaborators runningEvent "stop" "alice" 1000000000
              liveWorld myapp (data runningEvent))
    as (_ & _ & _ & _ & _ & Herr & _).
  - reflexivity.
  - reflexivity.
  - reflexivity.
  - reflexivity.
  - vm_compute. reflexivity.
  - reflexivity.
  - discriminate.
  - vm_compute. reflexivity.
  - exact Herr.
Defined.

Lemma RawInsert_stores_under_unique_id_witness :
  (@RawInsert sampleCollaborators runningEvent (GoInt 1) GoNil GoNil emptyWorld).2 = emptyWorld
  /\ ID (data (@RawInsert sampleCollaborators runningEvent (GoMap []) GoNil GoNil
                          emptyWorld).1.2)
     = mkEventID zeroTarget "H-object-id".
Proof.
  split.
  - pose proof (@RawInsert_stores_under_unique_id sampleCollaborators runningEvent
                  (GoInt 1) GoNil GoNil emptyWorld eq_refl) as Hraw.
    apply Hraw. discriminate.
  - pose proof (@RawInsert_stores_under_unique_id sampleCollaborators runningEvent
                  (GoMap []) GoNil GoNil emptyWorld eq_refl) as Hraw.
    apply Hraw. discriminate.
Defined.

Lemma MarkAsRemoved_marks_once_witness :
  (MarkAsRemoved myapp busyWorld).1 = None
  /\ events (MarkAsRemoved myapp (advance 1000000000 (MarkAsRemoved myapp busyWorld).2)).2
     = events (MarkAsRemoved myapp busyWorld).2.
Proof.
  destruct (MarkAsRemoved_marks_once myapp 1000000000 busyWorld)
    as (Hnil & _ & _ & _ & _ & Hsecond).
  - reflexivity.
  - discriminate.
  - discriminate.
  - split; [exact Hnil | exact Hsecond].
Defined.

Lemma SetThrottling_then_getThrottling_witness :
  getThrottling myapp sampleKind (SetThrottling twoAnHour emptyWorld) = Some twoAnHour.
Proof.
  destruct (SetThrottling_then_getThrottling twoAnHour emptyWorld myapp sampleKind)
    as (_ & _ & Hwide).
  - reflexivity.
  - rewrite Hwide; reflexivity.
Defined.

Lemma GetByID_before_and_after_Done_witness :
  @GetByID "A-object-id" createdWorld = (Some createdEvent, None)
  /\ ID (data (@Done sampleCollaborators createdEvent None
                     (advance 5000000000 createdWorld)).1.2)
     = mkEventID zeroTarget "A-object-id".
Proof.
  destruct (@GetByID_before_and_after_Done sampleCollaborators 3 sampleOpts emptyWorld
              createdWorld createdEvent 5000000000)
    as (Hbefore & _ & Hid & _).
  - vm_compute. reflexivity.
  - reflexivity.
  - discriminate.
  - vm_compute. reflexivity.
  - intros k row Hk _. unfold createdWorld in Hk. cbn [events] in Hk.
    apply lookup_singleton_Some in Hk as [<- _]. reflexivity.
  - split; [exact Hbefore | exact Hid].
Defined.

Lemma Migrate_applies_callback_witness :
  (@Migrate sampleWrap busyRows None markMigrated busyWorld).1 = None
  /\ (forall d, d ∈ busyRows ->
        events (@Migrate sampleWrap busyRows None markMigrated busyWorld).2 !! key_of (ID d)
        = Some (set_Error "migrated" d)).
Proof.
  destruct (Migrate_applies_callback sampleWrap markMigrated busyRows None busyWorld)
    as (Hnil & Hin & _).
  - reflexivity.
  - repeat constructor; vm_compute; eauto.
  - vm_compute. repeat constructor; vm_compute; intros Hin; inversion Hin; subst;
      try discriminate; try match goal with H : _ ∈ [] |- _ => inversion H end;
      match goal with H : _ ∈ _ :: _ |- _ => inversion H end.
  - split; [exact Hnil | exact Hin].
Defined.

Lemma New_kind_and_owner_witness :
  Kind_ (data createdEvent) = mkKind KindTypePermission "app.deploy"
  /\ Owner_ (data createdEvent) = mkOwner OwnerTypeUser "alice".
Proof.
  destruct (@New_kind_and_owner sampleCollaborators 3 sampleOpts emptyWorld createdWorld
              createdEvent None)
    as (scheme & Hscheme & Hkind & Howner).
  - vm_compute. reflexivity.
  - injection Hscheme as <-. split; [exact Hkind | exact Howner].
Defined.

Lemma NewInternal_kind_and_owner_witness :
  Kind_ (data internalEvent) = mkKind KindTypeInternal "healer"
  /\ Owner_ (data internalEvent) = mkOwner OwnerTypeInternal "".
Proof.
  destruct (@NewInternal_kind_and_owner sampleCollaborators 3 internalOpts emptyWorld
              internalWorld internalEvent None)
    as (_ & _ & _ & Hkind & Howner).
  - vm_compute. reflexivity.
  - split; [exact Hkind | exact Howner].
Defined.
